(** * trakt_converter: export-to-import conversion, verified

    A shallow embedding of [src/trakt_converter.py] (the functions
    [extract_id], [convert_export_to_import] and [detect_file_type]) and the
    properties of its specification.

    The program works on the value produced by [json.load]: Python objects
    of the JSON data model.  Dictionaries are finite maps with string keys;
    every operation that can raise in Python ([in] on a number, [.get] on a
    non-dictionary, subscripting) is modelled with its exception. *)

From Stdlib Require Import ZArith Floats.SpecFloat.
From stdpp Require Import gmap strings list fin_maps.

Local Open Scope string_scope.

(** ** Python values obtained from JSON *)

(** [json.load] yields [None], [bool], [int], [float], [str], [list] and
    [dict] (string keys).  Floats are kept as IEEE 754 data, integers are
    unbounded. *)
#[warnings="-register-all"] Inductive json : Type :=
  | JNull
  | JBool (b : bool)
  | JInt (z : Z)
  | JFloat (f : spec_float)
  | JStr (s : string)
  | JArr (l : list json)
  | JObj (m : gmap string json).

(** Python's truth value testing ([bool(v)]). *)
Definition truthy (v : json) : bool :=
  match v with
  | JNull => false
  | JBool b => b
  | JInt z => negb (z =? 0)%Z
  | JFloat f => match f with S754_zero _ => false | _ => true end
  | JStr s => negb (String.eqb s EmptyString)
  | JArr l => match l with [] => false | _ => true end
  | JObj m => negb (size m =? 0)%nat
  end.

(** ** Exceptions *)

Inductive exn : Type :=
  | TypeError
  | AttributeError
  | KeyError.

Inductive pyres (A : Type) : Type :=
  | Ok (a : A)
  | Raise (e : exn).
Arguments Ok {A} a.
Arguments Raise {A} e.

(** Sequencing: the first exception raised aborts what follows. *)
#[global] Instance pyres_ret : MRet pyres := λ A, Ok.
#[global] Instance pyres_bind : MBind pyres := λ A B k c,
  match c with
  | Ok a => k a
  | Raise e => Raise e
  end.

(** ** Primitive operations on Python values *)

(** [s in t] on strings: substring test. *)
Fixpoint is_substring (s t : string) : bool :=
  String.prefix s t ||
  match t with
  | EmptyString => false
  | String _ t' => is_substring s t'
  end.

(** [key == v] for a string [key]. *)
Definition str_eq (key : string) (v : json) : bool :=
  match v with
  | JStr s => String.eqb key s
  | _ => false
  end.

(** [key in v], for a string [key]. *)
Definition py_in (key : string) (v : json) : pyres bool :=
  match v with
  | JObj m => Ok (bool_decide (is_Some (m !! key)))
  | JArr l => Ok (existsb (str_eq key) l)
  | JStr s => Ok (is_substring key s)
  | _ => Raise TypeError
  end.

(** [v.get(key)]: only dictionaries have the method. *)
Definition py_get (v : json) (key : string) : pyres json :=
  match v with
  | JObj m => Ok (default JNull (m !! key))
  | _ => Raise AttributeError
  end.

(** [v[key]], for a string [key]. *)
Definition py_getitem (v : json) (key : string) : pyres json :=
  match v with
  | JObj m => match m !! key with
              | Some x => Ok x
              | None => Raise KeyError
              end
  | _ => Raise TypeError
  end.

(** ** [extract_id] *)

(** The returned pair: the field name is a string or [None], the value a
    Python value ([None] is [JNull]). *)
Definition extract_id (ids : json) : pyres (option string * json) :=
  v ← py_get ids "imdb";
  if truthy v then (w ← py_getitem ids "imdb"; Ok (Some "imdb_id", w)) else
  v ← py_get ids "tmdb";
  if truthy v then (w ← py_getitem ids "tmdb"; Ok (Some "tmdb_id", w)) else
  v ← py_get ids "tvdb";
  if truthy v then (w ← py_getitem ids "tvdb"; Ok (Some "tvdb_id", w)) else
  v ← py_get ids "trakt";
  if truthy v then (w ← py_getitem ids "trakt"; Ok (Some "trakt_id", w)) else
  Ok (None, JNull).

(** ** [convert_export_to_import] *)

(** The per-item variables assigned in the first half of the loop body
    (lines 48-76). *)
Record item_vars : Type := ItemVars {
  id_key : option string;
  id_value : json;
  item_type : json;
  watched_at : json;
}.

(** The two variables surviving an iteration of the loop. *)
Record locals : Type := Locals {
  result : list (gmap string json);
  skipped_count : nat;
}.

(** [item.get(k) and item[k].get("ids")], as a condition. *)
Definition get_and_ids (item : json) (k : string) : pyres bool :=
  a ← py_get item k;
  if truthy a then (sub ← py_getitem item k; b ← py_get sub "ids"; Ok (truthy b))
  else Ok false.

(** [k in item and item[k].get("ids")], as a condition. *)
Definition in_and_ids (item : json) (k : string) : pyres bool :=
  a ← py_in k item;
  if (a : bool) then (sub ← py_getitem item k; b ← py_get sub "ids"; Ok (truthy b))
  else Ok false.

(** [k in item and item[k]], as a condition. *)
Definition in_and_item (item : json) (k : string) : pyres bool :=
  a ← py_in k item;
  if (a : bool) then (v ← py_getitem item k; Ok (truthy v))
  else Ok false.

(** [extract_id(item[k]["ids"])]. *)
Definition extract_id_at (item : json) (k : string) : pyres (option string * json) :=
  sub ← py_getitem item k;
  ids ← py_getitem sub "ids";
  extract_id ids.

(** The [if]/[elif] chain of the history branch (lines 55-62). *)
Definition history_ids (item : json) : pyres (option string * json) :=
  c ← get_and_ids item "episode";
  if (c : bool) then extract_id_at item "episode" else
  c ← get_and_ids item "movie";
  if (c : bool) then extract_id_at item "movie" else
  c ← get_and_ids item "show";
  if (c : bool) then extract_id_at item "show" else
  c ← get_and_ids item "season";
  if (c : bool) then extract_id_at item "season" else
  Ok (None, JNull).

(** Lines 48-76: shape test and extraction. *)
Definition resolve_item (item : json) : pyres item_vars :=
  t ← py_in "type" item;
  if (t : bool) then
    ty ← py_get item "type";
    kv ← history_ids item;
    w ← py_get item "watched_at";
    Ok (ItemVars kv.1 kv.2 ty w)
  else
  c ← in_and_ids item "movie";
  if (c : bool) then
    kv ← extract_id_at item "movie";
    w ← py_get item "last_watched_at";
    Ok (ItemVars kv.1 kv.2 (JStr "movie") w)
  else
  c ← in_and_ids item "show";
  if (c : bool) then
    kv ← extract_id_at item "show";
    w ← py_get item "last_watched_at";
    Ok (ItemVars kv.1 kv.2 (JStr "show") w)
  else
  Ok (ItemVars None JNull JNull JNull).

(** Lines 84-100: the import entry built from an item whose identifier was
    accepted. *)
Definition build_entry (item : json) (key : string) (r : item_vars)
    : pyres (gmap string json) :=
  let entry : gmap string json := <["type" := item_type r]> {[ key := id_value r ]} in
  let entry := if truthy (watched_at r)
               then <["watched_at" := watched_at r]> entry else entry in
  c ← py_in "watchlisted_at" item;
  entry ← (if (c : bool) then v ← py_getitem item "watchlisted_at";
                     Ok (<["watchlisted_at" := v]> entry)
           else Ok entry);
  c ← in_and_item item "rating";
  if (c : bool) then
    v ← py_getitem item "rating";
    let entry := <["rating" := v]> entry in
    c ← py_in "rated_at" item;
    if (c : bool) then v ← py_getitem item "rated_at"; Ok (<["rated_at" := v]> entry)
    else Ok entry
  else Ok entry.

(** One iteration of [for item in data]. *)
Definition loop_body (st : locals) (item : json) : pyres locals :=
  r ← resolve_item item;
  match id_key r with
  | Some key =>
      if negb (String.eqb key EmptyString) && truthy (id_value r) then
        entry ← build_entry item key r;
        Ok (Locals (result st ++ [entry])%list (skipped_count st))
      else Ok (Locals (result st) (S (skipped_count st)))
  | None => Ok (Locals (result st) (S (skipped_count st)))
  end.

Fixpoint for_items (data : list json) (st : locals) : pyres locals :=
  match data with
  | [] => Ok st
  | item :: rest => st' ← loop_body st item; for_items rest st'
  end.

(** The loop of lines 44-102, run from the empty result and a zero
    counter. *)
Definition convert_loop (data : list json) : pyres locals :=
  for_items data (Locals [] 0).

(** What the function writes to the console. *)
Inductive console : Type :=
  | SkippedWarning (n : nat).

(** Lines 104-105: the warning is printed only for a positive count. *)
Definition warning (skipped_count : nat) : list console :=
  if (0 <? skipped_count)%nat then [SkippedWarning skipped_count] else [].

(** The function returns [result]; the skip counter is only printed. *)
Definition convert_export_to_import (data : list json)
    : pyres (list (gmap string json) * list console) :=
  st ← convert_loop data;
  Ok (result st, warning (skipped_count st)).

(** ** [detect_file_type] *)

Definition detect_file_type (data : list json) : pyres string :=
  match data with
  | [] => Ok "unknown"
  | first_item :: _ =>
      a ← py_in "action" first_item;
      t ← (if (a : bool) then Ok true else py_in "type" first_item);
      if (t : bool) then Ok "history" else
      m ← py_in "movie" first_item;
      if (m : bool) then Ok "watched-movies" else
      s ← py_in "show" first_item;
      if (s : bool) then Ok "watched-shows" else
      Ok "unknown"
  end.

(** ** Vocabulary of the statements *)

(** Dictionary literals. *)
Definition obj (l : list (string * json)) : json := JObj (list_to_map l).

(** The providers in priority order, and the field each one is reported
    under. *)
Definition provider_priority : list string := ["imdb"; "tmdb"; "tvdb"; "trakt"].

Definition id_field (provider : string) : string := provider +:+ "_id".

Definition id_fields : list string := id_field <$> provider_priority.

(** [d.get(k)] on a dictionary. *)
Definition dict_get (d : gmap string json) (k : string) : json :=
  default JNull (d !! k).

(** A provider is usable in an identifier set when its value is present and
    truthy. *)
Definition usable (ids : gmap string json) (provider : string) : bool :=
  truthy (dict_get ids provider).

(** The pair selected from an identifier set, as a function. *)
Definition best_id (ids : gmap string json) : option string * json :=
  match find (usable ids) provider_priority with
  | Some p => (Some (id_field p), dict_get ids p)
  | None => (None, JNull)
  end.

(** A pair returned by [extract_id]: either [(None, None)], or one of the
    four identifier fields with a truthy value. *)
Definition id_pair_ok (kv : option string * json) : Prop :=
  kv = (None, JNull) ∨
  ∃ p, p ∈ provider_priority ∧ kv.1 = Some (id_field p) ∧ truthy kv.2 = true.

(** The keys of an entry other than its identifier field. *)
Definition other_keys : list string :=
  ["type"; "watched_at"; "watchlisted_at"; "rating"; "rated_at"].

(** What one item contributes: an entry, or nothing (a skip). *)
Definition item_outcome (item : json) : pyres (option (gmap string json)) :=
  st ← loop_body (Locals [] 0) item; Ok (head (result st)).

(** Recording an outcome in the loop variables. *)
Definition push (st : locals) (o : option (gmap string json)) : locals :=
  match o with
  | Some entry => Locals (result st ++ [entry])%list (skipped_count st)
  | None => Locals (result st) (S (skipped_count st))
  end.

(** The variables after two runs, one after the other. *)
Definition merge (a b : locals) : locals :=
  Locals (result a ++ result b)%list (skipped_count a + skipped_count b).

(** The skip count read back from the console. *)
Definition printed_count (out : list console) : nat :=
  match out with
  | [SkippedWarning n] => n
  | _ => 0
  end.

Definition count_none {A} (os : list (option A)) : nat :=
  length (List.filter (λ o, match o with None => true | Some _ => false end) os).

(** The entry built for a dictionary item, as a function. *)
Definition entry_of (m : gmap string json) (key : string) (r : item_vars)
    : gmap string json :=
  let entry : gmap string json := <["type" := item_type r]> {[ key := id_value r ]} in
  let entry := if truthy (watched_at r)
               then <["watched_at" := watched_at r]> entry else entry in
  let entry := match m !! "watchlisted_at" with
               | Some v => <["watchlisted_at" := v]> entry
               | None => entry
               end in
  match m !! "rating" with
  | Some v =>
      if truthy v then
        let entry := <["rating" := v]> entry in
        match m !! "rated_at" with
        | Some w => <["rated_at" := w]> entry
        | None => entry
        end
      else entry
  | None => entry
  end.

(** Sub-record [k] of the item is present with the non-empty identifier
    set [ids]. *)
Definition has_ids (m : gmap string json) (k : string) (ids : gmap string json) : Prop :=
  ∃ sub, m !! k = Some (JObj sub) ∧ sub !! "ids" = Some (JObj ids) ∧ ids ≠ ∅.

(** A value offering no identifier set: a falsy value, or a dictionary
    whose [ids] is absent or falsy (null, or an empty set). *)
Definition lacks_ids (v : json) : bool :=
  match v with
  | JObj sub => negb (truthy (dict_get sub "ids"))
  | _ => negb (truthy v)
  end.

(** Key [k] is absent from the item, or offers no identifier set. *)
Definition absent_or_empty (m : gmap string json) (k : string) : bool :=
  match m !! k with
  | Some v => lacks_ids v
  | None => true
  end.

(** The same, when the value under a present key has to be a dictionary. *)
Definition absent_or_empty_dict (m : gmap string json) (k : string) : bool :=
  match m !! k with
  | Some (JObj sub) => negb (truthy (dict_get sub "ids"))
  | Some _ => false
  | None => true
  end.

(** A value of the wrong type that the normalizer acts upon: truthy but not
    a dictionary, or a dictionary whose [ids] is truthy but not a
    dictionary. *)
Definition ill_typed (v : json) : bool :=
  match v with
  | JObj sub => match dict_get sub "ids" with
                | JObj _ => false
                | i => truthy i
                end
  | _ => truthy v
  end.

(** The [if]/[elif] chain of the history branch over a list of keys. *)
Fixpoint ids_chain (item : json) (keys : list string)
    : pyres (option string * json) :=
  match keys with
  | [] => Ok (None, JNull)
  | k :: keys =>
      c ← get_and_ids item k;
      if (c : bool) then extract_id_at item k else ids_chain item keys
  end.

(** The order in which the history branch inspects the sub-records. *)
Definition history_order : list string := ["episode"; "movie"; "show"; "season"].

(** A sub-record value of the expected type: a dictionary whose [ids] is a
    dictionary or falsy. *)
Definition sub_record_ok (v : json) : bool :=
  match v with
  | JObj sub => match dict_get sub "ids" with
                | JObj _ => true
                | i => negb (truthy i)
                end
  | _ => false
  end.

(** Every sub-record present on the item has the expected type. *)
Definition well_shaped (m : gmap string json) : bool :=
  forallb (λ k, match m !! k with Some v => sub_record_ok v | None => true end)
          history_order.

(** How many of the four identifier fields an entry has. *)
Definition id_field_count (entry : gmap string json) : nat :=
  length (List.filter (λ f, bool_decide (is_Some (entry !! f))) id_fields).

(** The [rating] of the item when it is copied to the entry. *)
Definition copied_rating (m : gmap string json) : option json :=
  match m !! "rating" with
  | Some v => if truthy v then Some v else None
  | None => None
  end.

(** A sequence of dictionaries with sub-records of the expected type. *)
Definition well_shaped_data (data : list json) : Prop :=
  Forall (λ item, ∃ m, item = JObj m ∧ well_shaped m = true) data.

(** The item is processed with the selected pair [kv], the type [ty] and
    the timestamp source value [w]: it is skipped when the pair is
    [(None, None)], and otherwise emitted with that identifier, that type,
    and [watched_at] set to [w] when [w] is truthy. *)
Definition processed_with (m : gmap string json) (kv : option string * json)
    (ty w : json) : Prop :=
  resolve_item (JObj m) = Ok (ItemVars kv.1 kv.2 ty w)
  ∧ (kv.1 = None → item_outcome (JObj m) = Ok None)
  ∧ (∀ f, kv.1 = Some f →
       ∃ e, item_outcome (JObj m) = Ok (Some e)
            ∧ e !! f = Some kv.2 ∧ e !! "type" = Some ty
            ∧ e !! "watched_at" = if truthy w then Some w else None).

Definition has_key (m : gmap string json) (k : string) : bool :=
  bool_decide (is_Some (m !! k)).

(** The classification of a first element, in the words of the
    specification. *)
Definition classify_first (m : gmap string json) : string :=
  if has_key m "action" || has_key m "type" then "history"
  else if has_key m "movie" then "watched-movies"
  else if has_key m "show" then "watched-shows"
  else "unknown".

(** ** Example inputs *)

Definition ids_tmdb_only : gmap string json :=
  list_to_map [("imdb", JStr EmptyString); ("tmdb", JInt 456); ("trakt", JInt 9)].

Definition scenario1 : list json :=
  [obj [("type", JStr "movie");
        ("movie", obj [("ids", obj [("imdb", JStr "tt123"); ("tmdb", JInt 456)])]);
        ("watched_at", JStr "2020-01-01T00:00:00Z")]].

Definition scenario1_entry : gmap string json :=
  list_to_map [("imdb_id", JStr "tt123"); ("type", JStr "movie");
               ("watched_at", JStr "2020-01-01T00:00:00Z")].

(** A history item whose own [type] is the empty string. *)
Definition empty_type_item : json :=
  obj [("type", JStr EmptyString); ("movie", obj [("ids", obj [("imdb", JStr "tt1")])])].

Definition empty_type_entry : gmap string json :=
  list_to_map [("imdb_id", JStr "tt1"); ("type", JStr EmptyString)].

(** A history item with a null [watchlisted_at], a zero [rating] and a
    [rated_at]. *)
Definition unrated_item : json :=
  obj [("type", JStr "movie"); ("movie", obj [("ids", obj [("imdb", JStr "tt1")])]);
       ("watchlisted_at", JNull); ("rating", JInt 0);
       ("rated_at", JStr "2021-01-01T00:00:00Z")].

Definition unrated_entry : gmap string json :=
  list_to_map [("imdb_id", JStr "tt1"); ("type", JStr "movie");
               ("watchlisted_at", JNull)].

(** An item whose [movie] is null. *)
Definition null_movie_item : json := obj [("movie", JNull)].

(** A history item whose [episode] is a number, not a sub-record. *)
Definition numbered_episode_item : gmap string json :=
  list_to_map [("type", JStr "episode"); ("episode", JInt 3);
               ("show", obj [("ids", obj [("imdb", JStr "tt1")])])].

Definition imdb_tt1 : gmap string json := list_to_map [("imdb", JStr "tt1")].

Definition ids_tt1 : gmap string json := list_to_map [("ids", JObj imdb_tt1)].

(** An episode whose identifier set has no usable value, followed by a show
    that has one. *)
Definition unusable_episode_item : gmap string json :=
  list_to_map [("type", JStr "episode");
               ("episode", obj [("ids", obj [("imdb", JStr EmptyString)])]);
               ("show", obj [("ids", obj [("imdb", JStr "tt1")])])].

Definition imdb_blank : gmap string json := list_to_map [("imdb", JStr EmptyString)].

(** A history item with a null [movie] and no other sub-record. *)
Definition bare_history_item : gmap string json :=
  list_to_map [("type", JStr "movie"); ("movie", JNull)].

(** An item whose [movie] is a title, not a sub-record. *)
Definition titled_movie_item : json := obj [("movie", JStr "Heat")].

(** The same next to a [show] with identifiers. *)
Definition titled_movie_show_item : gmap string json :=
  list_to_map [("movie", JStr "Heat");
               ("show", obj [("ids", obj [("imdb", JStr "tt1")])])].

(** A history item with an [episode] without identifiers before a [movie]
    that has one. *)
Definition empty_episode_movie_item : gmap string json :=
  list_to_map [("type", JStr "movie");
               ("episode", obj [("ids", obj [])]);
               ("movie", obj [("ids", obj [("imdb", JStr "tt1")])]);
               ("watched_at", JStr "2020-01-01T00:00:00Z")].

(** A history item with a null [episode] before a [show] whose [ids] is a
    string. *)
Definition string_ids_item : gmap string json :=
  list_to_map [("type", JStr "show"); ("episode", JNull);
               ("show", obj [("ids", JStr "tt1")])].

(** A watched-shows item whose [show] is a title. *)
Definition titled_show_item : gmap string json :=
  list_to_map [("movie", obj [("ids", obj [])]); ("show", JStr "Heat")].

Definition scenario2 : list json :=
  [obj [("movie", obj [("ids", obj [("tmdb", JInt 789)])]);
        ("last_watched_at", JStr "2019-05-05T00:00:00Z")]].

Definition scenario2_entry : gmap string json :=
  list_to_map [("tmdb_id", JInt 789); ("type", JStr "movie");
               ("watched_at", JStr "2019-05-05T00:00:00Z")].

(** An item with an empty [movie] identifier set next to a show. *)
Definition empty_movie_show_item : gmap string json :=
  list_to_map [("movie", obj [("ids", obj [])]);
               ("show", obj [("ids", obj [("imdb", JStr "tt1")])]);
               ("last_watched_at", JStr "2021-03-04T00:00:00Z")].

Definition tmdb_789 : gmap string json := list_to_map [("tmdb", JInt 789)].

(** A watched-movies item that also carries [action] and [watched_at]. *)
Definition action_movie_item : gmap string json :=
  list_to_map [("action", JStr "watch");
               ("movie", obj [("ids", obj [("tmdb", JInt 789)])]);
               ("last_watched_at", JStr "2019-05-05T00:00:00Z");
               ("watched_at", JStr "2020-01-01T00:00:00Z")].

Definition action_only_item : gmap string json :=
  list_to_map [("action", JStr "watch")].

(** ** [generate_output_filename] *)

(** The table of lines 133-139. *)
Definition name_mapping : gmap string string :=
  list_to_map [("history-1", "history_import");
               ("history-2", "history_import");
               ("history-3", "history_import");
               ("watched-movies", "movies_import");
               ("watched-shows", "shows_import")].

(** [stem] stands for [Path(p).stem] of the standard library. *)
Definition generate_output_filename (stem : string → string) (input_file : string)
    : string :=
  let output_name :=
    default (stem input_file +:+ "_import") (name_mapping !! stem input_file) in
  output_name +:+ ".json".

(** ** [main] *)

(** What the standard library raises inside the [try] block, by the
    handler that catches it (lines 201-210). *)
Inductive io_error : Type :=
  | JSONDecodeError
  | FileNotFoundError
  | OtherException.

Inductive load_result : Type :=
  | Loaded (data : json)
  | LoadFailed (e : io_error).

(** What the script prints, by content: each constructor stands for the
    consecutive [print] calls of one place in the script. *)
Inductive message : Type :=
  | MissingInput
  | InputNotFound (input_file : string)
  | Loading (input_file : string)
  | ExpectedArray
  | Detected (file_type : string)
  | Found (n : nat)
  | Converting
  | Printed (c : console)
  | NoValidItems
  | Saving (output_file : string)
  | Success (n : nat) (output_file : string)
  | InvalidJSON (input_file : string)
  | CouldNotRead (input_file : string)
  | Unexpected.

(** The operating system and the library calls of [main]: [Path(p).stem],
    [os.path.exists], [open] with [json.load], [open] with [json.dump]
    ([None] when the file was written), and the console.  [print_ok m]
    tells whether [sys.stdout] takes the lines of [m]; when it does not
    (an encoding without the script's emoji, a closed pipe) the [print]
    call raises.  [stdout_flush] tells whether the interpreter can flush
    [sys.stdout] when it exits. *)
Record os_env : Type := OsEnv {
  path_stem : string → string;
  path_exists : string → bool;
  json_load : string → load_result;
  json_dump : string → list (gmap string json) → option io_error;
  print_ok : message → bool;
  stdout_flush : bool;
}.

(** A run of the script: the exit status of the process, the messages
    printed in full, and the [json.dump] call made, if any. *)
Record run : Type := Run {
  exit_code : nat;
  stdout : list message;
  dumped : option (string * list (gmap string json));
}.

(** What has happened so far in a run. *)
Record trace : Type := Trace {
  printed : list message;
  written : option (string * list (gmap string json));
}.

(** How a block of statements ends: it falls off its end, it calls
    [sys.exit(1)], or it raises. *)
Inductive control : Type :=
  | Returns
  | SysExit
  | Raises (e : io_error).

Definition script : Type := trace → control * trace.

(** [a] and then, when [a] falls off its end, [b]. *)
Definition seq (a b : script) : script :=
  λ t, match a t with
       | (Returns, t') => b t'
       | r => r
       end.

Local Infix ">>" := seq (at level 61, left associativity).

(** [try: a except e: h e]; [SystemExit] is not an [Exception] and passes
    through. *)
Definition try_except (a : script) (h : io_error → script) : script :=
  λ t, match a t with
       | (Raises e, t') => h e t'
       | r => r
       end.

Definition pass : script := λ t, (Returns, t).

Definition sys_exit : script := λ t, (SysExit, t).

Definition raise (e : io_error) : script := λ t, (Raises e, t).

Definition print (E : os_env) (m : message) : script :=
  λ t, if print_ok E m then (Returns, Trace (printed t ++ [m]) (written t))
       else (Raises OtherException, t).

Fixpoint print_all (E : os_env) (ms : list message) : script :=
  match ms with
  | [] => pass
  | m :: ms => print E m >> print_all E ms
  end.

(** [open(output_file, "w")] with [json.dump(converted, f, indent=2)]. *)
Definition dump (E : os_env) (output_file : string)
    (converted : list (gmap string json)) : script :=
  λ t, let t' := Trace (printed t) (Some (output_file, converted)) in
       match json_dump E output_file converted with
       | Some e => (Raises e, t')
       | None => (Returns, t')
       end.

(** The [except] clauses. *)
Definition handler (input_file : string) (e : io_error) : message :=
  match e with
  | JSONDecodeError => InvalidJSON input_file
  | FileNotFoundError => CouldNotRead input_file
  | OtherException => Unexpected
  end.

(** Lines 169-199, the body of the [try] statement. *)
Definition try_block (E : os_env) (input_file output_file : string) : script :=
  print E (Loading input_file) >>
  match json_load E input_file with
  | LoadFailed e => raise e
  | Loaded data =>
      match data with
      | JArr data =>
          match detect_file_type data with
          | Raise _ => raise OtherException
          | Ok file_type =>
              print E (Detected file_type) >>
              print E (Found (length data)) >>
              print E Converting >>
              match convert_export_to_import data with
              | Raise _ => raise OtherException
              | Ok (converted, warned) =>
                  print_all E (Printed <$> warned) >>
                  match converted with
                  | [] => print E NoValidItems >> sys_exit
                  | _ :: _ =>
                      print E (Saving output_file) >>
                      dump E output_file converted >>
                      print E (Success (length converted) output_file)
                  end
              end
          end
      | _ => print E ExpectedArray >> sys_exit
      end
  end.

(** The status the process ends with when the script asks for [status]
    ([sys.exit(status)], 1 after an exception that nothing catches, 0 when
    [main] returns): the interpreter flushes [sys.stdout] on its way out
    and ends with 120 instead when it cannot. *)
Definition process_status (E : os_env) (status : nat) : nat :=
  if stdout_flush E then status else 120.

Definition finish (E : os_env) (r : control * trace) : run :=
  Run (process_status E match r.1 with Returns => 0 | _ => 1 end)
      (printed r.2) (written r.2).

Definition main (E : os_env) (argv : list string) : run :=
  finish E
    (match argv with
     | [] | [_] => print E MissingInput >> sys_exit
     | _ :: input_file :: rest =>
         if negb (path_exists E input_file)
         then print E (InputNotFound input_file) >> sys_exit
         else
           let output_file :=
             match rest with
             | out :: _ => out
             | [] => generate_output_filename (path_stem E) input_file
             end in
           try_except (try_block E input_file output_file)
                      (λ e, print E (handler input_file e) >> sys_exit)
     end (Trace [] None)).

(** ** Vocabulary of the further statements *)

(** The keys of an item that the normalizer reads. *)
Definition relevant_keys : list string :=
  ["type"; "episode"; "movie"; "show"; "season"; "watched_at"; "last_watched_at";
   "watchlisted_at"; "rating"; "rated_at"].

(** The item is [None], a boolean or a number. *)
Definition is_scalar (item : json) : bool :=
  match item with
  | JNull | JBool _ | JInt _ | JFloat _ => true
  | _ => false
  end.

(** The record emitted for the show with identifier [tt1]. *)
Definition show_tt1_entry : gmap string json :=
  list_to_map [("imdb_id", JStr "tt1"); ("type", JStr "show");
               ("watched_at", JStr "2021-03-04T00:00:00Z")].

(** The output path of a run: the second argument when given, the default
    name otherwise. *)
Definition output_path (E : os_env) (input_file : string) (rest : list string)
    : string :=
  match rest with
  | out :: _ => out
  | [] => generate_output_filename (path_stem E) input_file
  end.

(** An environment in which every file exists, holds [data], and can be
    written, with a working console; paths are bare names without extension,
    their own stem. *)
Definition env_with (data : json) : os_env :=
  OsEnv (λ p, p) (λ _, true) (λ _, Loaded data) (λ _ _, None) (λ _, true) true.



(** * Properties *)

(** ** Sequencing *)

Lemma bind_Ok {A B} (a : A) (k : A → pyres B) : (Ok a ≫= k) = k a.
Proof. reflexivity. Qed.

(** Case analysis on the first computation of a sequence that returned. *)
Ltac case_bind :=
  lazymatch goal with
  | |- (?c ≫= _) = Ok _ → _ =>
      let H := fresh "Hc" in
      destruct c eqn:H; [rewrite bind_Ok|discriminate]
  end.

(** Membership in a list given by its elements. *)
Ltac in_list := apply list_elem_of_In; simpl; tauto.

Ltac case_if :=
  lazymatch goal with
  | |- (if ?b then _ else _) = _ → _ => destruct b
  end.

(** ** Dictionaries *)

Lemma py_getitem_truthy (m : gmap string json) k :
  truthy (dict_get m k) = true → py_getitem (JObj m) k = Ok (dict_get m k).
Proof.
  unfold dict_get. simpl. destruct (m !! k) as [v|]; simpl; [done|discriminate].
Qed.

Lemma truthy_obj_nonempty (m : gmap string json) :
  truthy (JObj m) = true ↔ m ≠ ∅.
Proof.
  simpl. rewrite negb_true_iff, Nat.eqb_neq. apply map_size_non_empty_iff.
Qed.

(** ** The identifier selector *)

Lemma extract_id_find (ids : gmap string json) :
  extract_id (JObj ids) =
  Ok (match find (usable ids) provider_priority with
      | Some p => (Some (id_field p), dict_get ids p)
      | None => (None, JNull)
      end).
Proof.
  unfold extract_id, usable. cbn [find provider_priority py_get mbind pyres_bind].
  fold (dict_get ids "imdb") (dict_get ids "tmdb") (dict_get ids "tvdb")
       (dict_get ids "trakt").
  destruct (truthy (dict_get ids "imdb")) eqn:?; [by rewrite py_getitem_truthy|].
  destruct (truthy (dict_get ids "tmdb")) eqn:?; [by rewrite py_getitem_truthy|].
  destruct (truthy (dict_get ids "tvdb")) eqn:?; [by rewrite py_getitem_truthy|].
  destruct (truthy (dict_get ids "trakt")) eqn:?; [by rewrite py_getitem_truthy|].
  reflexivity.
Qed.

Lemma find_first {A} (f : A → bool) pre x post :
  (∀ y, y ∈ pre → f y = false) → f x = true → find f (pre ++ x :: post)%list = Some x.
Proof.
  induction pre as [|a pre IH]; simpl; intros Hpre Hx.
  - by rewrite Hx.
  - rewrite (Hpre a) by left. apply IH; [|done]. intros y Hy. apply Hpre. by right.
Qed.

Lemma find_none {A} (f : A → bool) l :
  (∀ y, y ∈ l → f y = false) → find f l = None.
Proof.
  induction l as [|a l IH]; simpl; intros Hl; [done|].
  rewrite (Hl a) by left. apply IH. intros y Hy. apply Hl. by right.
Qed.

(** C1. On every identifier set (a dictionary, whatever its values),
    [extract_id] returns without raising; it returns [(<provider>_id, value)]
    for the first provider in the order imdb, tmdb, tvdb, trakt whose value
    is present and truthy, and [(None, None)] when no provider has a truthy
    value, in particular on the empty set. *)
Theorem extract_id_priority (ids : gmap string json) :
  (∃ r, extract_id (JObj ids) = Ok r)
  ∧ (∀ (pre : list string) p post v,
       provider_priority = (pre ++ p :: post)%list →
       (∀ q, q ∈ pre → usable ids q = false) →
       ids !! p = Some v → truthy v = true →
       extract_id (JObj ids) = Ok (Some (id_field p), v))
  ∧ ((∀ q, q ∈ provider_priority → usable ids q = false) →
       extract_id (JObj ids) = Ok (None, JNull))
  ∧ extract_id (JObj ∅) = Ok (None, JNull).
Proof.
  split; [|split; [|split]].
  - rewrite extract_id_find. eauto.
  - intros pre p post v Hsplit Hpre Hp Hv.
    rewrite extract_id_find, Hsplit, (find_first _ pre p post); [|done|].
    + unfold dict_get. by rewrite Hp.
    + unfold usable, dict_get. by rewrite Hp.
  - intros Hnone. by rewrite extract_id_find, find_none.
  - reflexivity.
Qed.

Lemma extract_id_priority_witness :
  extract_id (JObj ids_tmdb_only) = Ok (Some "tmdb_id", JInt 456)
  ∧ extract_id (obj [("imdb", JNull); ("tvdb", JInt 0)]) = Ok (None, JNull).
Proof.
  split.
  - apply (proj1 (proj2 (extract_id_priority ids_tmdb_only)) ["imdb"] "tmdb" ["tvdb"; "trakt"]).
    + reflexivity.
    + intros q Hq. apply list_elem_of_singleton in Hq. subst q. vm_compute. reflexivity.
    + vm_compute. reflexivity.
    + reflexivity.
  - apply (proj1 (proj2 (proj2 (extract_id_priority _)))).
    intros q Hq. unfold provider_priority in Hq.
    repeat (apply elem_of_cons in Hq as [->|Hq]; [vm_compute; reflexivity|]).
    by apply elem_of_nil in Hq.
Defined.

Lemma extract_id_best (ids : gmap string json) :
  extract_id (JObj ids) = Ok (best_id ids).
Proof. apply extract_id_find. Qed.

Lemma best_id_ok (ids : gmap string json) : id_pair_ok (best_id ids).
Proof.
  unfold best_id. destruct (find _ _) as [p|] eqn:Hfind; [right|by left].
  apply find_some in Hfind as [Hin Hp]. exists p. split; [|done].
  by apply list_elem_of_In.
Qed.

Lemma extract_id_ok ids kv : extract_id ids = Ok kv → id_pair_ok kv.
Proof.
  destruct ids; try discriminate. rewrite extract_id_best.
  intros ?; simplify_eq. apply best_id_ok.
Qed.

Lemma extract_id_at_ok item k kv : extract_id_at item k = Ok kv → id_pair_ok kv.
Proof.
  unfold extract_id_at. do 2 case_bind. apply extract_id_ok.
Qed.

Lemma history_ids_ok item kv : history_ids item = Ok kv → id_pair_ok kv.
Proof.
  unfold history_ids.
  do 4 (case_bind; case_if; [apply extract_id_at_ok|]).
  intros ?; simplify_eq. by left.
Qed.

Lemma resolve_item_ok item r :
  resolve_item item = Ok r → id_pair_ok (id_key r, id_value r).
Proof.
  unfold resolve_item. case_bind. case_if.
  - case_bind. case_bind. case_bind. intros ?; simplify_eq. simpl.
    rewrite <-surjective_pairing. by eapply history_ids_ok.
  - do 2 (case_bind; case_if;
          [case_bind; case_bind; intros ?; simplify_eq; simpl;
           rewrite <-surjective_pairing; by eapply extract_id_at_ok|]).
    intros ?; simplify_eq. by left.
Qed.

(** The identifier fields are non-empty strings, distinct from every other
    key of an entry. *)
Lemma id_field_facts p :
  p ∈ provider_priority →
  id_field p ∈ id_fields ∧ String.eqb (id_field p) EmptyString = false
  ∧ ∀ k, k ∈ other_keys → id_field p ≠ k.
Proof.
  unfold provider_priority, other_keys. intros Hp.
  repeat (apply elem_of_cons in Hp as [->|Hp]);
    try (by apply elem_of_nil in Hp);
    (split; [vm_compute; in_list|split; [reflexivity|]]);
    intros k Hk;
    repeat (apply elem_of_cons in Hk as [->|Hk]);
    try (by apply elem_of_nil in Hk); discriminate.
Qed.

(** ** The loop is a fold of independent per-item outcomes *)

Lemma loop_body_outcome st item :
  loop_body st item = (o ← item_outcome item; Ok (push st o)).
Proof.
  unfold item_outcome, loop_body.
  destruct (resolve_item item) as [r|]; [|done]. rewrite !bind_Ok.
  destruct (id_key r) as [key|]; [|done].
  destruct (negb (String.eqb key EmptyString) && truthy (id_value r)); [|done].
  by destruct (build_entry item key r).
Qed.

Lemma for_items_app xs ys st :
  for_items (xs ++ ys)%list st = (st' ← for_items xs st; for_items ys st').
Proof.
  revert st. induction xs as [|x xs IH]; intros st; [done|]. simpl.
  destruct (loop_body st x); [|done]. rewrite !bind_Ok. apply IH.
Qed.

Lemma merge_push st o b :
  merge (push st o) b = merge st (merge (push (Locals [] 0) o) b).
Proof.
  destruct st, b, o; unfold merge; simpl; f_equal;
    solve [by rewrite <-app_assoc | lia | done].
Qed.

Lemma for_items_shift ys st :
  for_items ys st = (b ← for_items ys (Locals [] 0); Ok (merge st b)).
Proof.
  revert st. induction ys as [|y ys IH]; intros st.
  - simpl. destruct st. unfold merge. simpl. by rewrite app_nil_r, Nat.add_0_r.
  - simpl. rewrite !loop_body_outcome.
    destruct (item_outcome y) as [o|]; [|done]. rewrite !bind_Ok.
    rewrite (IH (push st o)), (IH (push _ o)).
    destruct (for_items ys _); [|done]. rewrite !bind_Ok. by rewrite merge_push.
Qed.

Lemma for_items_mapM data st :
  for_items data st =
  (os ← mapM item_outcome data; Ok (merge st (Locals (omap id os) (count_none os)))).
Proof.
  revert st. induction data as [|x data IH]; intros st.
  - simpl. destruct st. unfold merge. simpl. by rewrite app_nil_r, Nat.add_0_r.
  - simpl. rewrite loop_body_outcome.
    destruct (item_outcome x) as [o|]; [|done]. rewrite !bind_Ok. rewrite IH.
    destruct (mapM item_outcome data) as [os|]; [|done]. rewrite !bind_Ok.
    f_equal. destruct st, o; unfold merge, count_none; simpl; f_equal.
    + by rewrite <-app_assoc.
    + lia.
Qed.

Lemma printed_count_warning n : printed_count (warning n) = n.
Proof. by destruct n. Qed.

(** C8. The loop is a fold of per-item outcomes: converting [xs ++ ys]
    is converting [xs], then [ys], and concatenating the records and adding
    the skip counts (an exception raised in either part is the exception of
    the whole); the records are the per-item outcomes in input order with
    the skipped items left out; and the contribution of the items after the
    first does not depend on the first item, the only one the detector
    looks at. *)
Theorem convert_loop_app (xs ys : list json) :
  convert_loop (xs ++ ys)%list =
    (a ← convert_loop xs; b ← convert_loop ys; Ok (merge a b))
  ∧ convert_export_to_import (xs ++ ys)%list =
    (a ← convert_export_to_import xs; b ← convert_export_to_import ys;
     Ok ((a.1 ++ b.1)%list, warning (printed_count a.2 + printed_count b.2)))
  ∧ convert_loop xs =
    (os ← mapM item_outcome xs; Ok (Locals (omap id os) (count_none os)))
  ∧ (∀ x : json,
      convert_loop (x :: ys) =
      (o ← item_outcome x; b ← convert_loop ys; Ok (merge (push (Locals [] 0) o) b))).
Proof.
  assert (convert_loop (xs ++ ys)%list =
          (a ← convert_loop xs; b ← convert_loop ys; Ok (merge a b))) as Happ.
  { unfold convert_loop. rewrite for_items_app.
    destruct (for_items xs _) as [a|]; [|done]. rewrite !bind_Ok.
    apply for_items_shift. }
  split; [done|]. split.
  { unfold convert_export_to_import. rewrite Happ.
    destruct (convert_loop xs) as [a|]; [|done]. rewrite !bind_Ok.
    destruct (convert_loop ys) as [b|]; [|done]. rewrite !bind_Ok.
    simpl. by rewrite !printed_count_warning. }
  unfold convert_loop. split.
  - rewrite for_items_mapM. by destruct (mapM _ _).
  - intros x. simpl. rewrite loop_body_outcome.
    destruct (item_outcome x) as [o|]; [|done]. rewrite !bind_Ok.
    apply for_items_shift.
Qed.

(** ** Items that are dictionaries *)

Section dict_item.
Variable m : gmap string json.

Lemma get_and_ids_obj k :
  get_and_ids (JObj m) k =
  match m !! k with
  | Some v => if truthy v then (b ← py_get v "ids"; Ok (truthy b)) else Ok false
  | None => Ok false
  end.
Proof.
  unfold get_and_ids. simpl. destruct (m !! k) as [v|]; simpl; [|done].
  by destruct (truthy v).
Qed.

Lemma in_and_ids_obj k :
  in_and_ids (JObj m) k =
  match m !! k with
  | Some v => b ← py_get v "ids"; Ok (truthy b)
  | None => Ok false
  end.
Proof.
  unfold in_and_ids. simpl. by destruct (m !! k) as [v|].
Qed.

Lemma has_ids_get k ids : has_ids m k ids → get_and_ids (JObj m) k = Ok true.
Proof.
  intros (sub & Hk & Hids & Hne). rewrite get_and_ids_obj, Hk.
  assert (truthy (JObj sub) = true) as ->.
  { apply truthy_obj_nonempty. intros ->. by rewrite lookup_empty in Hids. }
  simpl. unfold dict_get. rewrite Hids. simpl. f_equal.
  by apply (truthy_obj_nonempty ids).
Qed.

Lemma has_ids_in k ids : has_ids m k ids → in_and_ids (JObj m) k = Ok true.
Proof.
  intros (sub & Hk & Hids & Hne). rewrite in_and_ids_obj, Hk.
  simpl. unfold dict_get. rewrite Hids. simpl. f_equal.
  by apply (truthy_obj_nonempty ids).
Qed.

Lemma has_ids_extract k ids :
  has_ids m k ids → extract_id_at (JObj m) k = extract_id (JObj ids).
Proof.
  intros (sub & Hk & Hids & Hne). unfold extract_id_at. simpl.
  rewrite Hk. simpl. by rewrite Hids.
Qed.

Lemma absent_or_empty_get k :
  absent_or_empty m k = true → get_and_ids (JObj m) k = Ok false.
Proof.
  unfold absent_or_empty. rewrite get_and_ids_obj.
  destruct (m !! k) as [v|]; [|done]. intros Hv.
  destruct (truthy v) eqn:Ht; [|done].
  destruct v; try (by unfold lacks_ids in Hv; rewrite Ht in Hv).
  simpl in *. f_equal. by apply negb_true_iff.
Qed.

Lemma absent_or_empty_dict_in k :
  absent_or_empty_dict m k = true → in_and_ids (JObj m) k = Ok false.
Proof.
  unfold absent_or_empty_dict. rewrite in_and_ids_obj.
  destruct (m !! k) as [v|]; [|done]. intros Hv.
  destruct v; try discriminate. simpl. f_equal. by apply negb_true_iff.
Qed.

Lemma build_entry_obj key r :
  build_entry (JObj m) key r = Ok (entry_of m key r).
Proof.
  unfold build_entry, entry_of, in_and_item. simpl.
  destruct (m !! "watchlisted_at") as [wl|]; simpl;
    (destruct (m !! "rating") as [rt|]; simpl; [|done]);
    (destruct (truthy rt); simpl; [|done]);
    by destruct (m !! "rated_at").
Qed.

Lemma loop_body_obj st r :
  resolve_item (JObj m) = Ok r →
  loop_body st (JObj m) =
  Ok (push st match id_key r with
              | Some key => Some (entry_of m key r)
              | None => None
              end).
Proof.
  intros Hr. pose proof (resolve_item_ok _ _ Hr) as Hok.
  unfold loop_body. rewrite Hr, bind_Ok.
  destruct Hok as [Hnone|(p & Hp & Hkey & Hval)]; simpl in *.
  - injection Hnone as -> _. done.
  - rewrite Hkey, Hval. destruct (id_field_facts p Hp) as (_ & -> & _).
    simpl. by rewrite build_entry_obj.
Qed.

Lemma item_outcome_obj r :
  resolve_item (JObj m) = Ok r →
  item_outcome (JObj m) =
  Ok match id_key r with
     | Some key => Some (entry_of m key r)
     | None => None
     end.
Proof.
  intros Hr. unfold item_outcome. rewrite (loop_body_obj _ r Hr), bind_Ok.
  by destruct (id_key r).
Qed.
End dict_item.

(** ** The fields of a built entry *)

Section entry_fields.
Variables (m : gmap string json) (key : string) (r : item_vars).
Hypothesis key_other : ∀ k, k ∈ other_keys → key ≠ k.

Local Ltac key_facts :=
  assert (key ≠ "type") by (apply key_other; in_list);
  assert (key ≠ "watched_at") by (apply key_other; in_list);
  assert (key ≠ "watchlisted_at") by (apply key_other; in_list);
  assert (key ≠ "rating") by (apply key_other; in_list);
  assert (key ≠ "rated_at") by (apply key_other; in_list).

Local Ltac entry_cases :=
  unfold entry_of, copied_rating;
  destruct (truthy (watched_at r));
  destruct (m !! "watchlisted_at");
  (destruct (m !! "rating") as [rt|]; [destruct (truthy rt)|]);
  destruct (m !! "rated_at");
  simplify_map_eq; try done.

Lemma entry_of_type : entry_of m key r !! "type" = Some (item_type r).
Proof. key_facts. entry_cases. Qed.

Lemma entry_of_key : entry_of m key r !! key = Some (id_value r).
Proof. key_facts. entry_cases. Qed.

Lemma entry_of_watched_at :
  entry_of m key r !! "watched_at" =
  if truthy (watched_at r) then Some (watched_at r) else None.
Proof. key_facts. entry_cases. Qed.

Lemma entry_of_watchlisted_at :
  entry_of m key r !! "watchlisted_at" = m !! "watchlisted_at".
Proof. key_facts. entry_cases. Qed.

Lemma entry_of_rating : entry_of m key r !! "rating" = copied_rating m.
Proof. key_facts. entry_cases. Qed.

Lemma entry_of_rated_at :
  entry_of m key r !! "rated_at" =
  match copied_rating m with
  | Some _ => m !! "rated_at"
  | None => None
  end.
Proof. key_facts. entry_cases. Qed.

Lemma entry_of_other k :
  k ∉ other_keys → k ≠ key → entry_of m key r !! k = None.
Proof.
  intros Hk Hne.
  assert (k ≠ "type") by (intros ->; apply Hk; in_list).
  assert (k ≠ "watched_at") by (intros ->; apply Hk; in_list).
  assert (k ≠ "watchlisted_at") by (intros ->; apply Hk; in_list).
  assert (k ≠ "rating") by (intros ->; apply Hk; in_list).
  assert (k ≠ "rated_at") by (intros ->; apply Hk; in_list).
  entry_cases.
Qed.
End entry_fields.

Lemma id_field_inj p q :
  p ∈ provider_priority → q ∈ provider_priority → id_field p = id_field q → p = q.
Proof.
  unfold provider_priority. intros Hp Hq.
  repeat (apply elem_of_cons in Hp as [->|Hp]); try (by apply elem_of_nil in Hp);
    repeat (apply elem_of_cons in Hq as [->|Hq]); try (by apply elem_of_nil in Hq);
    vm_compute; congruence.
Qed.

Lemma entry_of_id_field_count m p r :
  p ∈ provider_priority → id_field_count (entry_of m (id_field p) r) = 1.
Proof.
  intros Hp. destruct (id_field_facts p Hp) as (_ & _ & Hother).
  assert (∀ q, q ∈ provider_priority →
            bool_decide (is_Some (entry_of m (id_field p) r !! id_field q))
            = bool_decide (q = p)) as Hq.
  { intros q Hq. destruct (decide (q = p)) as [->|Hne].
    - rewrite entry_of_key by done. rewrite !bool_decide_eq_true_2; eauto.
    - rewrite entry_of_other.
      + rewrite !bool_decide_eq_false_2; [done..|]. by intros [].
      + destruct (id_field_facts q Hq) as (_ & _ & Hq'). intros Hin.
        by apply (Hq' _ Hin).
      + intros Heq. apply Hne. by apply id_field_inj. }
  unfold id_field_count, id_fields, provider_priority in *. simpl.
  rewrite !Hq by in_list.
  repeat (apply elem_of_cons in Hp as [->|Hp]); try by apply elem_of_nil in Hp.
  all: reflexivity.
Qed.

(** ** Which items yield an entry *)

Lemma resolve_item_not_dict item r :
  (∀ m, item ≠ JObj m) → resolve_item item = Ok r → id_key r = None.
Proof.
  intros Hnd. unfold resolve_item, in_and_ids.
  destruct item as [| | | |s|l|m]; try discriminate; [| |by destruct (Hnd m)];
    simpl py_in; rewrite !bind_Ok.
  - destruct (is_substring "type" s); [discriminate|].
    destruct (is_substring "movie" s); [discriminate|]. rewrite bind_Ok.
    destruct (is_substring "show" s); [discriminate|]. rewrite bind_Ok.
    intros ?; by simplify_eq.
  - destruct (existsb (str_eq "type") l); [discriminate|].
    destruct (existsb (str_eq "movie") l); [discriminate|]. rewrite bind_Ok.
    destruct (existsb (str_eq "show") l); [discriminate|]. rewrite bind_Ok.
    intros ?; by simplify_eq.
Qed.

Lemma item_outcome_no_key item r :
  resolve_item item = Ok r → id_key r = None → item_outcome item = Ok None.
Proof.
  intros Hr Hk. unfold item_outcome, loop_body. by rewrite Hr, bind_Ok, Hk.
Qed.

Lemma item_outcome_entry item e :
  item_outcome item = Ok (Some e) →
  ∃ m r p, item = JObj m ∧ resolve_item item = Ok r ∧ p ∈ provider_priority
           ∧ id_key r = Some (id_field p) ∧ truthy (id_value r) = true
           ∧ e = entry_of m (id_field p) r.
Proof.
  intros He.
  destruct (resolve_item item) as [r|] eqn:Hr;
    [|by unfold item_outcome, loop_body in He; rewrite Hr in He].
  assert (∃ m, item = JObj m) as [m ->].
  { destruct item; eauto; exfalso;
      rewrite (item_outcome_no_key _ r) in He;
      done || by apply resolve_item_not_dict in Hr. }
  rewrite (item_outcome_obj m r Hr) in He.
  destruct (resolve_item_ok _ _ Hr) as [Hnone|(p & Hp & Hkey & Hval)]; simpl in *.
  - injection Hnone as Hk _. by rewrite Hk in He.
  - rewrite Hkey in He. simplify_eq. by exists m, r, p.
Qed.

Lemma loop_body_cases st item st' :
  loop_body st item = Ok st' →
  (∃ e, item_outcome item = Ok (Some e)
        ∧ st' = Locals (result st ++ [e])%list (skipped_count st))
  ∨ (item_outcome item = Ok None
     ∧ st' = Locals (result st) (S (skipped_count st))).
Proof.
  rewrite loop_body_outcome. case_bind. intros ?; simplify_eq.
  destruct a as [e|]; [left|right]; eauto.
Qed.

Lemma loop_body_appended st item st' e :
  loop_body st item = Ok st' → result st' = (result st ++ [e])%list →
  item_outcome item = Ok (Some e).
Proof.
  intros Hst Hres. apply loop_body_cases in Hst as [(e' & He & ->)|(_ & ->)]; simpl in *.
  - by apply app_inv_head in Hres as [= ->].
  - apply (f_equal length) in Hres. rewrite length_app in Hres. simpl in Hres. lia.
Qed.

Lemma for_items_Forall (P : gmap string json → Prop) :
  (∀ item e, item_outcome item = Ok (Some e) → P e) →
  ∀ data st st', Forall P (result st) → for_items data st = Ok st' →
                 Forall P (result st').
Proof.
  intros HP. induction data as [|x data IH]; intros st st' Hst; simpl.
  - intros ?; by simplify_eq.
  - case_bind. apply loop_body_cases in Hc as [(e & He & ->)|(_ & ->)];
      apply IH; simpl; [|done].
    apply Forall_app. split; [done|]. apply Forall_singleton. by eapply HP.
Qed.

Lemma convert_records data records out :
  convert_export_to_import data = Ok (records, out) →
  ∃ st, convert_loop data = Ok st ∧ records = result st
        ∧ out = warning (skipped_count st).
Proof.
  unfold convert_export_to_import. case_bind. intros ?; simplify_eq. eauto.
Qed.

Lemma convert_records_Forall (P : gmap string json → Prop) data records out :
  (∀ item e, item_outcome item = Ok (Some e) → P e) →
  convert_export_to_import data = Ok (records, out) → Forall P records.
Proof.
  intros HP (st & Hst & -> & _)%convert_records.
  by eapply (for_items_Forall P HP data (Locals [] 0)).
Qed.

(** The type and the timestamp source chosen for a dictionary item. *)
Lemma resolve_item_type m r :
  resolve_item (JObj m) = Ok r →
  match m !! "type" with
  | Some ty => item_type r = ty ∧ watched_at r = dict_get m "watched_at"
  | None =>
      ((item_type r = JStr "movie" ∨ item_type r = JStr "show")
       ∧ watched_at r = dict_get m "last_watched_at")
      ∨ id_key r = None
  end.
Proof.
  unfold resolve_item. simpl py_in. rewrite bind_Ok.
  destruct (m !! "type") as [ty|] eqn:Hty; simpl bool_decide; cbv iota.
  - simpl py_get. rewrite bind_Ok. case_bind. rewrite bind_Ok.
    intros ?; simplify_eq. simpl. unfold dict_get. by rewrite Hty.
  - do 2 (case_bind; case_if;
          [case_bind; simpl py_get; rewrite bind_Ok; intros ?; simplify_eq;
           left; simpl; eauto|]).
    intros ?; simplify_eq. by right.
Qed.

(** ** Invariants of the emitted entries *)

Lemma id_fields_elem f :
  f ∈ id_fields ↔ ∃ p, p ∈ provider_priority ∧ f = id_field p.
Proof.
  unfold id_fields. rewrite list_elem_of_fmap.
  split; intros (p & ? & ?); eauto.
Qed.

Lemma entry_of_id_fields m p r f :
  p ∈ provider_priority → f ∈ id_fields →
  is_Some (entry_of m (id_field p) r !! f) → f = id_field p.
Proof.
  intros Hp (q & Hq & ->)%id_fields_elem Hsome.
  destruct (decide (q = p)) as [->|Hne]; [done|].
  destruct (id_field_facts p Hp) as (_ & _ & Hother).
  destruct (id_field_facts q Hq) as (_ & _ & Hother').
  rewrite entry_of_other in Hsome; [by destruct Hsome|..].
  - intros Hin. by apply (Hother' _ Hin).
  - intros Heq. apply Hne. by apply id_field_inj.
Qed.

(** C9. In every emitted record the value stored under an identifier field
    is truthy, hence not null, not the empty string and not zero:
    [extract_id] only returns truthy values, and an item whose selected
    field name or value is falsy is skipped. *)
Theorem emitted_id_truthy data records out :
  convert_export_to_import data = Ok (records, out) →
  (∀ e, e ∈ records →
     (∃ f v, f ∈ id_fields ∧ e !! f = Some v)
     ∧ ∀ f v, f ∈ id_fields → e !! f = Some v →
         truthy v = true ∧ v ≠ JNull ∧ v ≠ JStr EmptyString ∧ v ≠ JInt 0)
  ∧ (∀ ids k v, extract_id ids = Ok (Some k, v) → truthy v = true)
  ∧ (∀ item r, resolve_item item = Ok r →
       id_key r = None ∨ id_key r = Some EmptyString ∨ truthy (id_value r) = false →
       item_outcome item = Ok None).
Proof.
  intros Hconv. split; [|split].
  - apply Forall_forall.
    eapply convert_records_Forall; [|done]. clear.
    intros item e (m & r & p & -> & Hr & Hp & Hkey & Hval & ->)%item_outcome_entry.
    destruct (id_field_facts p Hp) as (Hin & _ & Hother). split.
    + exists (id_field p), (id_value r). split; [done|]. by apply entry_of_key.
    + intros f v Hf Hfv.
      assert (f = id_field p) as ->
          by (eapply entry_of_id_fields; [done..|by rewrite Hfv]).
      rewrite entry_of_key in Hfv by done. simplify_eq.
      repeat split; [done|by intros Heq; rewrite Heq in Hval..].
  - intros ids k v [Hnone|(p & _ & _ & Hv)]%extract_id_ok; [done|done].
  - intros item r Hr Hcase. unfold item_outcome, loop_body. rewrite Hr, bind_Ok.
    destruct Hcase as [->|[->|Hv]]; [done..|].
    destruct (id_key r); [|done]. by rewrite Hv, andb_false_r.
Qed.

Lemma emitted_id_truthy_witness :
  convert_export_to_import scenario1 = Ok ([scenario1_entry], [])
  ∧ truthy (JStr "tt123") = true ∧ JStr "tt123" ≠ JNull
  ∧ JStr "tt123" ≠ JStr EmptyString ∧ JStr "tt123" ≠ JInt 0.
Proof.
  assert (convert_export_to_import scenario1 = Ok ([scenario1_entry], [])) as Hconv
      by (vm_compute; reflexivity).
  split; [exact Hconv|].
  apply (proj1 (emitted_id_truthy scenario1 [scenario1_entry] [] Hconv)
           scenario1_entry (list_elem_of_here _ _)
         : _ ∧ _) with "imdb_id".
  - vm_compute. apply list_elem_of_here.
  - vm_compute. reflexivity.
Defined.

(** C2, as stated, fails: a history item with an empty [type] and a usable
    identifier is emitted with that empty [type]. *)
Lemma emitted_type_may_be_empty :
  convert_export_to_import [empty_type_item] = Ok ([empty_type_entry], [])
  ∧ id_field_count empty_type_entry = 1
  ∧ empty_type_entry !! "type" = Some (JStr EmptyString)
  ∧ truthy (JStr EmptyString) = false.
Proof. vm_compute. repeat split; reflexivity. Qed.

(** C2, amended. Every emitted record has exactly one of the four
    identifier fields and has a [type] field.  For an item without a [type]
    key the value is the literal ["movie"] or ["show"]; for a history item it
    is the item's own [type] value, copied verbatim, empty or not. *)
Theorem emitted_entry_shape data records out :
  convert_export_to_import data = Ok (records, out) →
  (∀ e, e ∈ records → id_field_count e = 1 ∧ is_Some (e !! "type"))
  ∧ (∀ m e, item_outcome (JObj m) = Ok (Some e) →
       match m !! "type" with
       | Some ty => e !! "type" = Some ty
       | None => e !! "type" = Some (JStr "movie") ∨ e !! "type" = Some (JStr "show")
       end).
Proof.
  intros Hconv. split.
  - apply Forall_forall.
    eapply convert_records_Forall; [|done]. clear.
    intros item e (m & r & p & -> & Hr & Hp & Hkey & Hval & ->)%item_outcome_entry.
    destruct (id_field_facts p Hp) as (_ & _ & Hother). split.
    + by apply entry_of_id_field_count.
    + rewrite entry_of_type by done. eauto.
  - clear. intros m e (m' & r & p & [= <-] & Hr & Hp & Hkey & Hval & ->)%item_outcome_entry.
    destruct (id_field_facts p Hp) as (_ & _ & Hother).
    rewrite entry_of_type by done.
    apply resolve_item_type in Hr. destruct (m !! "type") as [ty|].
    + by destruct Hr as [-> _].
    + destruct Hr as [[[-> | ->] _]|Hnone]; [by left|by right|].
      by rewrite Hnone in Hkey.
Qed.

Lemma emitted_entry_shape_witness :
  convert_export_to_import [empty_type_item] = Ok ([empty_type_entry], [])
  ∧ id_field_count empty_type_entry = 1 ∧ is_Some (empty_type_entry !! "type").
Proof.
  assert (convert_export_to_import [empty_type_item] = Ok ([empty_type_entry], []))
    as Hconv by (vm_compute; reflexivity).
  split; [exact Hconv|].
  exact (proj1 (emitted_entry_shape _ _ _ Hconv) empty_type_entry
               (list_elem_of_here _ _)).
Defined.

(** C4. For an item that produces a record: [watched_at] is present iff the
    timestamp source ([watched_at] for an item with a [type] key,
    [last_watched_at] otherwise) is truthy, and then holds its value;
    [watchlisted_at] is copied iff the key is on the item, whatever the value;
    [rating] is copied iff the key is on the item with a truthy value;
    [rated_at] is copied iff [rating] was copied and the key is on the
    item. *)
Theorem optional_fields_gating st item st' e :
  loop_body st item = Ok st' → result st' = (result st ++ [e])%list →
  ∃ m, item = JObj m ∧
    let source := match m !! "type" with
                  | Some _ => dict_get m "watched_at"
                  | None => dict_get m "last_watched_at"
                  end in
    (∀ v, e !! "watched_at" = Some v ↔ v = source ∧ truthy source = true)
    ∧ (∀ v, e !! "watchlisted_at" = Some v ↔ m !! "watchlisted_at" = Some v)
    ∧ (∀ v, e !! "rating" = Some v ↔ m !! "rating" = Some v ∧ truthy v = true)
    ∧ (∀ v, e !! "rated_at" = Some v ↔
            is_Some (e !! "rating") ∧ m !! "rated_at" = Some v).
Proof.
  intros Hst Hres. pose proof (loop_body_appended _ _ _ _ Hst Hres) as He.
  apply item_outcome_entry in He as (m & r & p & -> & Hr & Hp & Hkey & Hval & ->).
  destruct (id_field_facts p Hp) as (_ & _ & Hother).
  exists m. split; [done|]. simpl.
  rewrite entry_of_watched_at, entry_of_rating by done.
  assert (watched_at r = match m !! "type" with
                         | Some _ => dict_get m "watched_at"
                         | None => dict_get m "last_watched_at"
                         end) as <-.
  { apply resolve_item_type in Hr. destruct (m !! "type").
    - by destruct Hr.
    - destruct Hr as [[_ ?]|Hnone]; [done|]. by rewrite Hnone in Hkey. }
  split; [|split; [|split]].
  - intros v. destruct (truthy (watched_at r)); split.
    + by intros [= <-].
    + by intros [-> _].
    + done.
    + by intros [_ [=]].
  - intros v. by rewrite entry_of_watchlisted_at.
  - intros v. unfold copied_rating.
    destruct (m !! "rating") as [rt|]; [|split; [done|by intros [? _]]].
    destruct (truthy rt) eqn:Hrt; split.
    + by intros [= <-].
    + by intros [? _].
    + done.
    + intros [[= <-] Hv]. congruence.
  - intros v. rewrite entry_of_rated_at by done.
    destruct (copied_rating m) as [rt|].
    + split; [eauto|by intros [_ ?]].
    + split; [done|]. by intros [[? [=]] _].
Qed.

Lemma optional_fields_gating_witness :
  loop_body (Locals [] 0) unrated_item = Ok (Locals [unrated_entry] 0)
  ∧ ∃ m, unrated_item = JObj m ∧
      let source := match m !! "type" with
                    | Some _ => dict_get m "watched_at"
                    | None => dict_get m "last_watched_at"
                    end in
      (∀ v, unrated_entry !! "watched_at" = Some v ↔ v = source ∧ truthy source = true)
      ∧ (∀ v, unrated_entry !! "watchlisted_at" = Some v ↔
              m !! "watchlisted_at" = Some v)
      ∧ (∀ v, unrated_entry !! "rating" = Some v ↔
              m !! "rating" = Some v ∧ truthy v = true)
      ∧ (∀ v, unrated_entry !! "rated_at" = Some v ↔
              is_Some (unrated_entry !! "rating") ∧ m !! "rated_at" = Some v).
Proof.
  assert (loop_body (Locals [] 0) unrated_item = Ok (Locals [unrated_entry] 0)) as Hst
      by (vm_compute; reflexivity).
  split; [exact Hst|].
  exact (optional_fields_gating (Locals [] 0) unrated_item (Locals [unrated_entry] 0)
           unrated_entry Hst eq_refl).
Defined.

(** ** Exactly one outcome per item *)

(** C5, as stated, fails: on an item whose [movie] is a string the loop
    body raises, so no record is appended and the counter is not
    incremented, and the conversion of the sequence produces neither. *)
Lemma titled_movie_neither_outcome :
  py_in "type" titled_movie_item = Ok false
  ∧ loop_body (Locals [] 0) titled_movie_item = Raise AttributeError
  ∧ convert_export_to_import [titled_movie_item] = Raise AttributeError.
Proof. vm_compute. repeat split; reflexivity. Qed.

Section well_shaped_item.
Variable m : gmap string json.

Lemma sub_record_ok_conditions k :
  match m !! k with Some v => sub_record_ok v | None => true end = true →
  (get_and_ids (JObj m) k = Ok false ∧ in_and_ids (JObj m) k = Ok false)
  ∨ (get_and_ids (JObj m) k = Ok true ∧ in_and_ids (JObj m) k = Ok true
     ∧ ∃ kv, extract_id_at (JObj m) k = Ok kv).
Proof.
  rewrite get_and_ids_obj, in_and_ids_obj. unfold extract_id_at. simpl py_getitem.
  destruct (m !! k) as [v|]; [|by left].
  destruct v as [| | | | | |sub]; try discriminate. unfold sub_record_ok.
  simpl py_get. rewrite !bind_Ok. unfold dict_get. simpl py_getitem.
  destruct (sub !! "ids") as [ids|] eqn:Hids; cbn -[truthy].
  - destruct (truthy ids) eqn:Hti.
    + intros Hok. right.
      assert (truthy (JObj sub) = true) as ->.
      { apply truthy_obj_nonempty. intros ->. by rewrite lookup_empty in Hids. }
      repeat split; [done..|].
      destruct ids; try (rewrite Hti in Hok; discriminate).
      rewrite extract_id_best. eauto.
    + intros _. left. by destruct (truthy (JObj sub)).
  - intros _. left. by destruct (truthy (JObj sub)).
Qed.

Hypothesis shaped : well_shaped m = true.

Lemma well_shaped_key k :
  k ∈ history_order →
  match m !! k with Some v => sub_record_ok v | None => true end = true.
Proof.
  intros Hk. unfold well_shaped in shaped.
  rewrite forallb_forall in shaped. apply shaped. by apply list_elem_of_In.
Qed.

Lemma well_shaped_resolve : ∃ r, resolve_item (JObj m) = Ok r.
Proof.
  assert (∀ k, k ∈ history_order → _) as Hkey
      by (intros k Hk; exact (sub_record_ok_conditions k (well_shaped_key k Hk))).
  pose proof (Hkey "episode" ltac:(in_list)) as He.
  pose proof (Hkey "movie" ltac:(in_list)) as Hm.
  pose proof (Hkey "show" ltac:(in_list)) as Hs.
  pose proof (Hkey "season" ltac:(in_list)) as Hn.
  clear Hkey. unfold resolve_item, history_ids. simpl py_in. simpl py_get.
  rewrite !bind_Ok.
  destruct (bool_decide _).
  - rewrite ?bind_Ok.
    destruct He as [[-> _]|(-> & _ & kv & ->)]; rewrite !bind_Ok; [|eauto].
    destruct Hm as [[-> _]|(-> & _ & kv & ->)]; rewrite !bind_Ok; [|eauto].
    destruct Hs as [[-> _]|(-> & _ & kv & ->)]; rewrite !bind_Ok; [|eauto].
    destruct Hn as [[-> _]|(-> & _ & kv & ->)]; rewrite !bind_Ok; eauto.
  - destruct Hm as [[_ ->]|(_ & -> & kv & ->)]; rewrite !bind_Ok; [|eauto].
    destruct Hs as [[_ ->]|(_ & -> & kv & ->)]; rewrite !bind_Ok; eauto.
Qed.

Lemma well_shaped_loop_body st : ∃ st', loop_body st (JObj m) = Ok st'.
Proof.
  destruct well_shaped_resolve as [r Hr]. rewrite (loop_body_obj m st r Hr). eauto.
Qed.
End well_shaped_item.

Lemma for_items_length data st st' :
  for_items data st = Ok st' →
  length (result st') + skipped_count st' =
  length (result st) + skipped_count st + length data.
Proof.
  revert st. induction data as [|x data IH]; intros st; simpl.
  - intros ?; simplify_eq. lia.
  - case_bind. intros Hrest%IH.
    apply loop_body_cases in Hc as [(e & _ & ->)|(_ & ->)]; simpl in *;
      rewrite ?length_app in Hrest; simpl in *; lia.
Qed.

Lemma for_items_well_shaped data st :
  well_shaped_data data → ∃ st', for_items data st = Ok st'.
Proof.
  intros Hdata. revert st.
  induction Hdata as [|x data (m & -> & Hm) _ IH]; intros st; simpl; [eauto|].
  destruct (well_shaped_loop_body m Hm st) as [st' ->]. rewrite bind_Ok. apply IH.
Qed.

(** C5, amended. Whenever the loop body returns, exactly one of two things
    happened: one record was appended and the counter is unchanged, or the
    counter went up by one and the records are unchanged.  It returns at
    least on every dictionary item whose sub-records have the expected type.
    Whenever the conversion returns, the number of records plus the skip
    count is the length of the input, and it returns at least on every
    sequence of such items. *)
Theorem one_outcome_per_item :
  (∀ st item st', loop_body st item = Ok st' →
     ((∃ e, result st' = (result st ++ [e])%list)
      ∧ skipped_count st' = skipped_count st)
     ∧ ¬ (result st' = result st ∧ skipped_count st' = S (skipped_count st))
     ∨ (result st' = result st ∧ skipped_count st' = S (skipped_count st))
       ∧ ¬ (∃ e, result st' = (result st ++ [e])%list))
  ∧ (∀ m st, well_shaped m = true → ∃ st', loop_body st (JObj m) = Ok st')
  ∧ (∀ data st, convert_loop data = Ok st →
       length (result st) + skipped_count st = length data)
  ∧ (∀ data, well_shaped_data data → ∃ st, convert_loop data = Ok st).
Proof.
  split; [|split; [|split]].
  - intros st item st' [(e & _ & ->)|(_ & ->)]%loop_body_cases; simpl.
    + left. split; [eauto|]. intros [_ ?]. lia.
    + right. split; [done|]. intros [e He]. apply (f_equal length) in He.
      rewrite length_app in He. simpl in He. lia.
  - intros m st Hm. by apply well_shaped_loop_body.
  - intros data st Hst. by apply for_items_length in Hst.
  - intros data Hdata. by apply for_items_well_shaped.
Qed.

Lemma one_outcome_per_item_witness :
  well_shaped_data scenario1
  ∧ ∃ st, convert_loop scenario1 = Ok st
          ∧ length (result st) + skipped_count st = length scenario1.
Proof.
  assert (well_shaped_data scenario1) as Hdata.
  { constructor; [|constructor].
    eexists. split; [reflexivity|]. vm_compute. reflexivity. }
  split; [exact Hdata|].
  destruct (proj2 (proj2 (proj2 one_outcome_per_item)) scenario1 Hdata) as [st Hst].
  exists st. split; [exact Hst|].
  exact (proj1 (proj2 (proj2 one_outcome_per_item)) scenario1 st Hst).
Defined.

(** ** How an item is processed *)

Lemma resolve_processed m kv ty w :
  resolve_item (JObj m) = Ok (ItemVars kv.1 kv.2 ty w) → processed_with m kv ty w.
Proof.
  intros Hr. split; [done|].
  rewrite (item_outcome_obj m _ Hr). simpl. split; [by intros ->|].
  intros f Hf. rewrite Hf. eexists. split; [done|].
  destruct (resolve_item_ok _ _ Hr) as [Hnone|(p & Hp & Hkey & Hval)]; simpl in *.
  - rewrite Hf in Hnone. discriminate.
  - rewrite Hf in Hkey. simplify_eq.
    destruct (id_field_facts p Hp) as (_ & _ & Hother).
    by rewrite entry_of_key, entry_of_type, entry_of_watched_at.
Qed.

Lemma history_ids_first m (pre : list string) k post ids :
  history_order = (pre ++ k :: post)%list →
  (∀ q, q ∈ pre → absent_or_empty m q = true) →
  has_ids m k ids →
  history_ids (JObj m) = extract_id (JObj ids).
Proof.
  intros Hsplit Hpre Hk. unfold history_order in Hsplit. unfold history_ids.
  destruct pre as [|a pre]; simplify_eq/=.
  { by rewrite (has_ids_get _ _ _ Hk), bind_Ok, (has_ids_extract _ _ _ Hk). }
  rewrite (absent_or_empty_get m "episode"), bind_Ok by (apply Hpre; in_list).
  destruct pre as [|a pre]; simplify_eq/=.
  { by rewrite (has_ids_get _ _ _ Hk), bind_Ok, (has_ids_extract _ _ _ Hk). }
  rewrite (absent_or_empty_get m "movie"), bind_Ok by (apply Hpre; in_list).
  destruct pre as [|a pre]; simplify_eq/=.
  { by rewrite (has_ids_get _ _ _ Hk), bind_Ok, (has_ids_extract _ _ _ Hk). }
  rewrite (absent_or_empty_get m "show"), bind_Ok by (apply Hpre; in_list).
  destruct pre as [|a pre]; simplify_eq/=.
  { by rewrite (has_ids_get _ _ _ Hk), bind_Ok, (has_ids_extract _ _ _ Hk). }
  by destruct pre.
Qed.

Lemma history_ids_none m :
  (∀ q, q ∈ history_order → absent_or_empty m q = true) →
  history_ids (JObj m) = Ok (None, JNull).
Proof.
  intros Hall. unfold history_ids.
  rewrite (absent_or_empty_get m "episode"), bind_Ok by (apply Hall; in_list).
  rewrite (absent_or_empty_get m "movie"), bind_Ok by (apply Hall; in_list).
  rewrite (absent_or_empty_get m "show"), bind_Ok by (apply Hall; in_list).
  by rewrite (absent_or_empty_get m "season"), bind_Ok by (apply Hall; in_list).
Qed.

Lemma resolve_item_history m ty :
  m !! "type" = Some ty →
  resolve_item (JObj m) =
  (kv ← history_ids (JObj m); Ok (ItemVars kv.1 kv.2 ty (dict_get m "watched_at"))).
Proof.
  intros Hty. unfold resolve_item. simpl py_in. simpl py_get. rewrite Hty.
  rewrite !bind_Ok. simpl bool_decide. cbv iota.
  by destruct (history_ids _).
Qed.

Lemma resolve_item_watched m :
  m !! "type" = None →
  resolve_item (JObj m) =
  (c ← in_and_ids (JObj m) "movie";
   if (c : bool) then
     kv ← extract_id_at (JObj m) "movie";
     Ok (ItemVars kv.1 kv.2 (JStr "movie") (dict_get m "last_watched_at"))
   else
   c ← in_and_ids (JObj m) "show";
   if (c : bool) then
     kv ← extract_id_at (JObj m) "show";
     Ok (ItemVars kv.1 kv.2 (JStr "show") (dict_get m "last_watched_at"))
   else Ok (ItemVars None JNull JNull JNull)).
Proof.
  intros Hty. unfold resolve_item. simpl py_in. rewrite Hty, bind_Ok.
  simpl bool_decide. cbv iota.
  destruct (in_and_ids _ "movie") as [[]|]; [| |done]; rewrite !bind_Ok.
  { by destruct (extract_id_at _ _). }
  destruct (in_and_ids _ "show") as [[]|]; [| |done]; rewrite !bind_Ok; [|done].
  by destruct (extract_id_at _ _).
Qed.

(** ** Values of the wrong type *)

Lemma extract_id_not_dict ids :
  (∀ d, ids ≠ JObj d) → extract_id ids = Raise AttributeError.
Proof. intros Hnd. destruct ids; try done. by destruct (Hnd m). Qed.

Lemma ill_typed_conditions m k v :
  m !! k = Some v → ill_typed v = true →
  (get_and_ids (JObj m) k = Raise AttributeError
   ∧ in_and_ids (JObj m) k = Raise AttributeError)
  ∨ (get_and_ids (JObj m) k = Ok true ∧ in_and_ids (JObj m) k = Ok true
     ∧ extract_id_at (JObj m) k = Raise AttributeError).
Proof.
  intros Hk Hv. rewrite get_and_ids_obj, in_and_ids_obj. unfold extract_id_at.
  simpl py_getitem. rewrite Hk, bind_Ok.
  destruct v as [| | | | | |sub];
    try (left; unfold ill_typed in Hv; rewrite Hv; done).
  right. unfold ill_typed, dict_get in Hv. simpl py_get. rewrite !bind_Ok.
  unfold dict_get. simpl py_getitem.
  destruct (sub !! "ids") as [i|] eqn:Hi; [|done]. simpl in Hv. rewrite bind_Ok.
  assert (truthy i = true) as Hti by (by destruct i).
  assert (truthy (JObj sub) = true) as ->.
  { apply truthy_obj_nonempty. intros ->. by rewrite lookup_empty in Hi. }
  simpl default. rewrite Hti. repeat split.
  apply extract_id_not_dict. intros d ->. simpl in Hv. discriminate.
Qed.

Lemma history_ids_chain item : history_ids item = ids_chain item history_order.
Proof.
  unfold history_ids, history_order. simpl.
  destruct (get_and_ids item "episode") as [[]|]; [done| |done]. rewrite !bind_Ok.
  destruct (get_and_ids item "movie") as [[]|]; [done| |done]. rewrite !bind_Ok.
  destruct (get_and_ids item "show") as [[]|]; [done| |done]. rewrite !bind_Ok.
  by destruct (get_and_ids item "season") as [[]|].
Qed.

Lemma ids_chain_pre m (pre rest : list string) :
  (∀ q, q ∈ pre → absent_or_empty m q = true) →
  ids_chain (JObj m) (pre ++ rest)%list = ids_chain (JObj m) rest.
Proof.
  induction pre as [|q pre IH]; intros Hpre; [done|]. simpl.
  rewrite (absent_or_empty_get m q), bind_Ok by (apply Hpre; left).
  apply IH. intros q' Hq'. apply Hpre. by right.
Qed.

Lemma history_ids_raise m (pre : list string) k post v :
  history_order = (pre ++ k :: post)%list →
  (∀ q, q ∈ pre → absent_or_empty m q = true) →
  m !! k = Some v → ill_typed v = true →
  history_ids (JObj m) = Raise AttributeError.
Proof.
  intros Hsplit Hpre Hk Hv.
  rewrite history_ids_chain, Hsplit, (ids_chain_pre m pre _ Hpre). simpl.
  destruct (ill_typed_conditions m k v Hk Hv) as [[-> _]|(-> & _ & Hex)]; [done|].
  by rewrite bind_Ok.
Qed.

Lemma loop_body_raise item e :
  resolve_item item = Raise e → ∀ st, loop_body st item = Raise e.
Proof. intros Hr st. unfold loop_body. by rewrite Hr. Qed.

(** ** History items *)

Lemma imdb_tt1_nonempty : imdb_tt1 ≠ ∅.
Proof.
  intros Heq. apply (f_equal (λ d : gmap string json, d !! "imdb")) in Heq.
  vm_compute in Heq. discriminate.
Qed.

(** C3, as stated, fails: [show] is the first (and only) sub-record of
    this item present with a non-empty [ids] mapping, but the item is not
    processed with it: inspecting [episode], a number, raises. *)
Lemma history_scalar_episode_raises :
  numbered_episode_item !! "type" = Some (JStr "episode")
  ∧ numbered_episode_item !! "episode" = Some (JInt 3)
  ∧ numbered_episode_item !! "movie" = None
  ∧ has_ids numbered_episode_item "show" imdb_tt1
  ∧ resolve_item (JObj numbered_episode_item) = Raise AttributeError
  ∧ convert_export_to_import [JObj numbered_episode_item] = Raise AttributeError.
Proof.
  repeat split; try (vm_compute; reflexivity).
  exists ids_tt1. repeat split; try (vm_compute; reflexivity).
  apply imdb_tt1_nonempty.
Qed.

(** C3, amended. For a dictionary item with a [type] key: when the
    sub-records before [k] in the order episode, movie, show, season are each
    absent or without identifiers (falsy, or a dictionary whose [ids] is
    absent or falsy) and [k] is present with a non-empty [ids] mapping, the
    item is processed with what [extract_id] returns on that mapping alone,
    with the item's own [type] value and with [watched_at] as timestamp
    source; in particular it is skipped when that mapping has no usable
    identifier, whatever the later sub-records hold.  When all four are absent
    or without identifiers the item is skipped.  When instead the value
    under [k] is truthy but not a dictionary, or is a dictionary whose [ids]
    is truthy but not a dictionary, the normalizer raises [AttributeError]. *)
Theorem history_first_ids m ty :
  m !! "type" = Some ty →
  (∀ (pre : list string) k post ids,
     history_order = (pre ++ k :: post)%list →
     (∀ q, q ∈ pre → absent_or_empty m q = true) →
     has_ids m k ids →
     ∃ kv, extract_id (JObj ids) = Ok kv
           ∧ processed_with m kv ty (dict_get m "watched_at"))
  ∧ ((∀ q, q ∈ history_order → absent_or_empty m q = true) →
     item_outcome (JObj m) = Ok None)
  ∧ (∀ (pre : list string) k post v,
       history_order = (pre ++ k :: post)%list →
       (∀ q, q ∈ pre → absent_or_empty m q = true) →
       m !! k = Some v → ill_typed v = true →
       resolve_item (JObj m) = Raise AttributeError
       ∧ ∀ st, loop_body st (JObj m) = Raise AttributeError).
Proof.
  intros Hty. split; [|split].
  - intros pre k post ids Hsplit Hpre Hk.
    exists (best_id ids). split; [apply extract_id_best|].
    apply resolve_processed. rewrite (resolve_item_history m ty Hty).
    by rewrite (history_ids_first m pre k post ids), extract_id_best.
  - intros Hall.
    apply (item_outcome_no_key _ (ItemVars None JNull ty (dict_get m "watched_at")));
      [|done].
    by rewrite (resolve_item_history m ty Hty), (history_ids_none m Hall).
  - intros pre k post v Hsplit Hpre Hk Hv.
    assert (resolve_item (JObj m) = Raise AttributeError) as Hr.
    { by rewrite (resolve_item_history m ty Hty),
                 (history_ids_raise m pre k post v Hsplit Hpre Hk Hv). }
    split; [done|]. by apply loop_body_raise.
Qed.

Lemma history_first_ids_witness :
  has_ids unusable_episode_item "episode" imdb_blank
  ∧ has_ids unusable_episode_item "show" imdb_tt1
  ∧ extract_id (JObj imdb_blank) = Ok (None, JNull)
  ∧ extract_id (JObj imdb_tt1) = Ok (Some "imdb_id", JStr "tt1")
  ∧ item_outcome (JObj unusable_episode_item) = Ok None
  ∧ item_outcome (JObj bare_history_item) = Ok None
  ∧ absent_or_empty empty_episode_movie_item "episode" = true
  ∧ has_ids empty_episode_movie_item "movie" imdb_tt1
  ∧ (∃ kv, extract_id (JObj imdb_tt1) = Ok kv
           ∧ processed_with empty_episode_movie_item kv (JStr "movie")
                            (dict_get empty_episode_movie_item "watched_at"))
  ∧ absent_or_empty string_ids_item "episode" = true
  ∧ absent_or_empty string_ids_item "movie" = true
  ∧ resolve_item (JObj string_ids_item) = Raise AttributeError.
Proof.
  assert (has_ids unusable_episode_item "episode" imdb_blank) as Hep.
  { exists (list_to_map [("ids", JObj imdb_blank)]).
    repeat split; try (vm_compute; reflexivity).
    intros Heq. apply (f_equal (λ d : gmap string json, d !! "imdb")) in Heq.
    vm_compute in Heq. discriminate. }
  assert (has_ids unusable_episode_item "show" imdb_tt1) as Hshow.
  { exists ids_tt1. repeat split; try (vm_compute; reflexivity).
    apply imdb_tt1_nonempty. }
  assert (extract_id (JObj imdb_blank) = Ok (None, JNull)) as Hnone
      by (vm_compute; reflexivity).
  assert (extract_id (JObj imdb_tt1) = Ok (Some "imdb_id", JStr "tt1")) as Hsome
      by (vm_compute; reflexivity).
  assert (item_outcome (JObj unusable_episode_item) = Ok None) as Hfirst.
  { destruct (proj1 (history_first_ids unusable_episode_item (JStr "episode")
                       ltac:(vm_compute; reflexivity))
                [] "episode" ["movie"; "show"; "season"] imdb_blank
                eq_refl
                ltac:(intros q Hq; by apply elem_of_nil in Hq)
                Hep) as (kv & Hkv & _ & Hskip & _).
    apply Hskip. rewrite Hnone in Hkv. by injection Hkv as <-. }
  assert (item_outcome (JObj bare_history_item) = Ok None) as Hbare.
  { apply (proj1 (proj2 (history_first_ids bare_history_item (JStr "movie")
                           ltac:(vm_compute; reflexivity)))).
    intros q Hq. unfold history_order in Hq.
    repeat (apply elem_of_cons in Hq as [->|Hq]; [vm_compute; reflexivity|]).
    destruct (not_elem_of_nil _ Hq). }
  assert (absent_or_empty empty_episode_movie_item "episode" = true) as Hpass
      by (vm_compute; reflexivity).
  assert (has_ids empty_episode_movie_item "movie" imdb_tt1) as Hmovie.
  { exists ids_tt1. repeat split; try (vm_compute; reflexivity).
    apply imdb_tt1_nonempty. }
  assert (∃ kv, extract_id (JObj imdb_tt1) = Ok kv
                ∧ processed_with empty_episode_movie_item kv (JStr "movie")
                                 (dict_get empty_episode_movie_item "watched_at"))
    as Hsecond.
  { apply (proj1 (history_first_ids empty_episode_movie_item (JStr "movie")
                    ltac:(vm_compute; reflexivity))
             ["episode"] "movie" ["show"; "season"] imdb_tt1 eq_refl);
      [|exact Hmovie].
    intros q Hq. apply list_elem_of_singleton in Hq. subst q. exact Hpass. }
  assert (absent_or_empty string_ids_item "episode" = true) as Hnull
      by (vm_compute; reflexivity).
  assert (absent_or_empty string_ids_item "movie" = true) as Hnomovie
      by (vm_compute; reflexivity).
  assert (resolve_item (JObj string_ids_item) = Raise AttributeError) as Hraise.
  { apply (proj2 (proj2 (history_first_ids string_ids_item (JStr "show")
                           ltac:(vm_compute; reflexivity)))
             ["episode"; "movie"] "show" ["season"]
             (obj [("ids", JStr "tt1")]) eq_refl).
    - intros q Hq.
      repeat (apply elem_of_cons in Hq as [->|Hq]; [assumption|]).
      destruct (not_elem_of_nil _ Hq).
    - vm_compute. reflexivity.
    - vm_compute. reflexivity. }
  exact (conj Hep (conj Hshow (conj Hnone (conj Hsome (conj Hfirst (conj Hbare
          (conj Hpass (conj Hmovie (conj Hsecond (conj Hnull (conj Hnomovie
          Hraise))))))))))).
Defined.

(** ** Watched-movies and watched-shows items *)

(** C6, as stated, fails: this item has no [type] key and no [movie]
    sub-record with identifiers (its [movie] is a string), and it has a
    [show] sub-record with a non-empty identifier set, but it is not
    processed as a show: testing [movie] raises. *)
Lemma titled_movie_hides_show :
  titled_movie_show_item !! "type" = None
  ∧ titled_movie_show_item !! "movie" = Some (JStr "Heat")
  ∧ has_ids titled_movie_show_item "show" imdb_tt1
  ∧ resolve_item (JObj titled_movie_show_item) = Raise AttributeError
  ∧ convert_export_to_import [JObj titled_movie_show_item] = Raise AttributeError.
Proof.
  repeat split; try (vm_compute; reflexivity).
  exists ids_tt1. repeat split; try (vm_compute; reflexivity).
  apply imdb_tt1_nonempty.
Qed.

(** C6, amended. For a dictionary item without a [type] key: when [movie]
    is present with a non-empty [ids] mapping, the item is processed with
    what [extract_id] returns on it, the type ["movie"] and
    [last_watched_at] as timestamp source (emitted as [watched_at]); when
    [movie] is absent, or is a dictionary whose [ids] is absent or falsy, and
    [show] is present with a non-empty [ids] mapping, the same holds with
    the type ["show"].  When [movie], or [show] once [movie] is passed over
    in that way, is truthy but not a dictionary, or is a dictionary whose
    [ids] is truthy but not a dictionary, the normalizer raises
    [AttributeError].  The watched-movies scenario yields its record with
    skip count 0. *)
Theorem watched_item_ids m :
  m !! "type" = None →
  (∀ ids, has_ids m "movie" ids →
     ∃ kv, extract_id (JObj ids) = Ok kv
           ∧ processed_with m kv (JStr "movie") (dict_get m "last_watched_at"))
  ∧ (∀ ids, absent_or_empty_dict m "movie" = true → has_ids m "show" ids →
     ∃ kv, extract_id (JObj ids) = Ok kv
           ∧ processed_with m kv (JStr "show") (dict_get m "last_watched_at"))
  ∧ (∀ v, m !! "movie" = Some v → ill_typed v = true →
       resolve_item (JObj m) = Raise AttributeError
       ∧ ∀ st, loop_body st (JObj m) = Raise AttributeError)
  ∧ (∀ v, absent_or_empty_dict m "movie" = true →
       m !! "show" = Some v → ill_typed v = true →
       resolve_item (JObj m) = Raise AttributeError
       ∧ ∀ st, loop_body st (JObj m) = Raise AttributeError)
  ∧ convert_loop scenario2 = Ok (Locals [scenario2_entry] 0)
  ∧ convert_export_to_import scenario2 = Ok ([scenario2_entry], []).
Proof.
  intros Hty. split; [|split; [|split; [|split; [|split]]]].
  - intros ids Hm. exists (best_id ids). split; [apply extract_id_best|].
    apply resolve_processed. rewrite (resolve_item_watched m Hty).
    rewrite (has_ids_in _ _ _ Hm), bind_Ok, (has_ids_extract _ _ _ Hm).
    by rewrite extract_id_best.
  - intros ids Hm Hs. exists (best_id ids). split; [apply extract_id_best|].
    apply resolve_processed. rewrite (resolve_item_watched m Hty).
    rewrite (absent_or_empty_dict_in _ _ Hm), bind_Ok.
    rewrite (has_ids_in _ _ _ Hs), bind_Ok, (has_ids_extract _ _ _ Hs).
    by rewrite extract_id_best.
  - intros v Hk Hv.
    assert (resolve_item (JObj m) = Raise AttributeError) as Hr.
    { rewrite (resolve_item_watched m Hty).
      destruct (ill_typed_conditions m "movie" v Hk Hv) as [[_ ->]|(_ & -> & Hex)];
        [done|]. by rewrite bind_Ok, Hex. }
    split; [done|]. by apply loop_body_raise.
  - intros v Hm Hk Hv.
    assert (resolve_item (JObj m) = Raise AttributeError) as Hr.
    { rewrite (resolve_item_watched m Hty).
      rewrite (absent_or_empty_dict_in _ _ Hm), bind_Ok.
      destruct (ill_typed_conditions m "show" v Hk Hv) as [[_ ->]|(_ & -> & Hex)];
        [done|]. by rewrite bind_Ok, Hex. }
    split; [done|]. by apply loop_body_raise.
  - vm_compute. reflexivity.
  - vm_compute. reflexivity.
Qed.

Lemma watched_item_ids_witness :
  empty_movie_show_item !! "type" = None
  ∧ absent_or_empty_dict empty_movie_show_item "movie" = true
  ∧ has_ids empty_movie_show_item "show" imdb_tt1
  ∧ (∃ kv, extract_id (JObj imdb_tt1) = Ok kv
           ∧ processed_with empty_movie_show_item kv (JStr "show")
                            (dict_get empty_movie_show_item "last_watched_at"))
  ∧ has_ids action_movie_item "movie" tmdb_789
  ∧ (∃ kv, extract_id (JObj tmdb_789) = Ok kv
           ∧ processed_with action_movie_item kv (JStr "movie")
                            (dict_get action_movie_item "last_watched_at"))
  ∧ resolve_item (JObj titled_movie_show_item) = Raise AttributeError
  ∧ absent_or_empty_dict titled_show_item "movie" = true
  ∧ resolve_item (JObj titled_show_item) = Raise AttributeError.
Proof.
  assert (empty_movie_show_item !! "type" = None) as Hty by (vm_compute; reflexivity).
  assert (absent_or_empty_dict empty_movie_show_item "movie" = true) as Hm
      by (vm_compute; reflexivity).
  assert (has_ids empty_movie_show_item "show" imdb_tt1) as Hs.
  { exists ids_tt1. repeat split; try (vm_compute; reflexivity).
    apply imdb_tt1_nonempty. }
  assert (has_ids action_movie_item "movie" tmdb_789) as Hmovie.
  { exists (list_to_map [("ids", JObj tmdb_789)]).
    repeat split; try (vm_compute; reflexivity).
    intros Heq. apply (f_equal (λ d : gmap string json, d !! "tmdb")) in Heq.
    vm_compute in Heq. discriminate. }
  assert (absent_or_empty_dict titled_show_item "movie" = true) as Hpass
      by (vm_compute; reflexivity).
  split; [exact Hty|]. split; [exact Hm|]. split; [exact Hs|]. split.
  { exact (proj1 (proj2 (watched_item_ids empty_movie_show_item Hty)) imdb_tt1 Hm Hs). }
  split; [exact Hmovie|]. split.
  { exact (proj1 (watched_item_ids action_movie_item ltac:(vm_compute; reflexivity))
                 tmdb_789 Hmovie). }
  split.
  { exact (proj1 (proj1 (proj2 (proj2 (watched_item_ids titled_movie_show_item
                                         ltac:(vm_compute; reflexivity))))
                        (JStr "Heat") ltac:(vm_compute; reflexivity) eq_refl)). }
  split; [exact Hpass|].
  exact (proj1 (proj1 (proj2 (proj2 (proj2 (watched_item_ids titled_show_item
                                              ltac:(vm_compute; reflexivity)))))
                      (JStr "Heat") Hpass ltac:(vm_compute; reflexivity) eq_refl)).
Defined.

(** ** The shape detector *)

Lemma detect_file_type_obj m rest :
  detect_file_type (JObj m :: rest) = Ok (classify_first m).
Proof.
  unfold detect_file_type, classify_first, has_key. simpl py_in.
  rewrite !bind_Ok.
  destruct (bool_decide (is_Some (m !! "action"))); simpl; [done|].
  destruct (bool_decide (is_Some (m !! "type"))); simpl; [done|].
  destruct (bool_decide (is_Some (m !! "movie"))); simpl; [done|].
  by destruct (bool_decide (is_Some (m !! "show"))).
Qed.

(** C7. [detect_file_type] returns "unknown" on the empty sequence; on a
    sequence whose first element is a dictionary it classifies by that
    element's keys: history for [action] or [type], else watched-movies for
    [movie], else watched-shows for [show], else unknown; two sequences with
    the same first element get the same answer. *)
Theorem detect_file_type_first :
  detect_file_type [] = Ok "unknown"
  ∧ (∀ m rest, detect_file_type (JObj m :: rest) = Ok (classify_first m))
  ∧ (∀ x xs ys, detect_file_type (x :: xs) = detect_file_type (x :: ys)).
Proof.
  split; [done|]. split; [|done].
  intros m rest. apply detect_file_type_obj.
Qed.

(** ** Detector and normalizer on items with [action] but no [type] *)

Lemma resolve_item_ignores_action m :
  m !! "type" = None →
  resolve_item (JObj m) = resolve_item (JObj (delete "action" m)).
Proof.
  intros Hty.
  rewrite (resolve_item_watched m Hty), (resolve_item_watched (delete "action" m))
    by (by rewrite lookup_delete_ne).
  rewrite !in_and_ids_obj. unfold extract_id_at, dict_get. simpl py_getitem.
  by rewrite !lookup_delete_ne by done.
Qed.

(** C10. An item with an [action] key and no [type] key, put first, makes
    the detector answer "history", while the normalizer never consults
    [action]: it treats the item as it treats the item without that key,
    so that it raises, skips it, or emits it with the type ["movie"] or
    ["show"] and [last_watched_at] as timestamp source.  Both the
    emitting and the skipping case occur. *)
Theorem detector_normalizer_disagree :
  (∀ m rest, is_Some (m !! "action") → m !! "type" = None →
     detect_file_type (JObj m :: rest) = Ok "history"
     ∧ resolve_item (JObj m) = resolve_item (JObj (delete "action" m))
     ∧ ∀ o, item_outcome (JObj m) = Ok o →
         o = None
         ∨ ∃ e, o = Some e
                ∧ (e !! "type" = Some (JStr "movie") ∨ e !! "type" = Some (JStr "show"))
                ∧ e !! "watched_at" =
                  if truthy (dict_get m "last_watched_at")
                  then Some (dict_get m "last_watched_at") else None)
  ∧ detect_file_type [JObj action_movie_item] = Ok "history"
  ∧ convert_export_to_import [JObj action_movie_item] = Ok ([scenario2_entry], [])
  ∧ detect_file_type [JObj action_only_item] = Ok "history"
  ∧ convert_loop [JObj action_only_item] = Ok (Locals [] 1).
Proof.
  split; [|repeat split; vm_compute; reflexivity].
  intros m rest Hact Hty. split; [|split].
  - rewrite detect_file_type_obj. unfold classify_first, has_key.
    by rewrite bool_decide_eq_true_2.
  - by apply resolve_item_ignores_action.
  - intros [e|] Ho; [right|by left]. exists e. split; [done|].
    apply item_outcome_entry in Ho as (m' & r & p & [= <-] & Hr & Hp & Hkey & _ & ->).
    destruct (id_field_facts p Hp) as (_ & _ & Hother).
    rewrite entry_of_type, entry_of_watched_at by done.
    apply resolve_item_type in Hr. rewrite Hty in Hr.
    destruct Hr as [[Hmovie ->]|Hnone]; [|by rewrite Hnone in Hkey].
    split; [|done]. destruct Hmovie as [-> | ->]; eauto.
Qed.

Lemma detector_normalizer_disagree_witness :
  is_Some (action_movie_item !! "action")
  ∧ action_movie_item !! "type" = None
  ∧ detect_file_type [JObj action_movie_item] = Ok "history"
  ∧ resolve_item (JObj action_movie_item)
    = resolve_item (JObj (delete "action" action_movie_item)).
Proof.
  assert (is_Some (action_movie_item !! "action")) as Hact
      by (exists (JStr "watch"); vm_compute; reflexivity).
  assert (action_movie_item !! "type" = None) as Hty by (vm_compute; reflexivity).
  split; [exact Hact|]. split; [exact Hty|].
  destruct (proj1 detector_normalizer_disagree action_movie_item [] Hact Hty)
    as (Hdet & Hres & _).
  split; [exact Hdet|exact Hres].
Defined.

(** * Further properties *)

(** ** Identifier sets that select the same pair *)

Lemma best_id_ext (a b : gmap string json) :
  (∀ q, q ∈ provider_priority →
     dict_get a q = dict_get b q
     ∨ (truthy (dict_get a q) = false ∧ truthy (dict_get b q) = false)) →
  best_id a = best_id b.
Proof.
  unfold best_id. induction provider_priority as [|p l IH]; intros Hq; [done|].
  simpl. unfold usable at 1 3.
  destruct (Hq p ltac:(left)) as [Heq|[Ha Hb]].
  - rewrite Heq. destruct (truthy (dict_get b p)); [by rewrite Heq|].
    apply IH. intros q Hin. apply Hq. by right.
  - rewrite Ha, Hb. apply IH. intros q Hin. apply Hq. by right.
Qed.

(** X1. Keys other than the four providers play no part in the selection:
    adding, changing or removing such a key (a [slug], say) leaves the
    result of [extract_id] unchanged. *)
Theorem extract_id_other_key (ids : gmap string json) k v :
  k ∉ provider_priority →
  extract_id (JObj (<[k := v]> ids)) = extract_id (JObj ids)
  ∧ extract_id (JObj (delete k ids)) = extract_id (JObj ids).
Proof.
  intros Hk. rewrite !extract_id_best. split; f_equal; apply best_id_ext;
    intros q Hq; left; unfold dict_get;
    assert (k ≠ q) by (by intros ->).
  - by rewrite lookup_insert_ne.
  - by rewrite lookup_delete_ne.
Qed.

Lemma extract_id_other_key_witness :
  extract_id (JObj (<["slug" := JStr "heat-1995"]> ids_tmdb_only))
  = extract_id (JObj ids_tmdb_only).
Proof.
  apply (extract_id_other_key ids_tmdb_only "slug" (JStr "heat-1995")).
  unfold provider_priority. intros Hin.
  repeat (apply elem_of_cons in Hin as [Heq|Hin]; [discriminate Heq|]).
  destruct (not_elem_of_nil _ Hin).
Defined.

(** X2. A falsy value is the same as no value: storing [None], [0], an
    empty string, [False] or an empty container under a key gives the result
    obtained with that key removed, so the selection moves on to the next
    provider. *)
Theorem extract_id_falsy_absent (ids : gmap string json) k v :
  truthy v = false →
  extract_id (JObj (<[k := v]> ids)) = extract_id (JObj (delete k ids)).
Proof.
  intros Hv. rewrite !extract_id_best. f_equal. apply best_id_ext.
  intros q _. unfold dict_get. destruct (decide (k = q)) as [->|Hne].
  - right. by rewrite lookup_insert_eq, lookup_delete_eq.
  - left. by rewrite lookup_insert_ne, lookup_delete_ne.
Qed.

Lemma extract_id_falsy_absent_witness :
  extract_id (JObj (<["imdb" := JInt 0]> ids_tmdb_only))
  = extract_id (JObj (delete "imdb" ids_tmdb_only)).
Proof.
  apply (extract_id_falsy_absent ids_tmdb_only "imdb" (JInt 0)). reflexivity.
Defined.

(** ** Items that are not dictionaries *)

(** X3. An item that is not a dictionary never yields a record.  [None],
    booleans and numbers make the loop raise [TypeError]; a string or a list
    is skipped when it does not contain ["type"], ["movie"] or ["show"] (as
    a substring, resp. as an element), and makes the loop raise otherwise. *)
Theorem non_dict_item_no_record (item : json) :
  (∀ m, item ≠ JObj m) →
  (∀ e, item_outcome item ≠ Ok (Some e))
  ∧ (is_scalar item = true → ∀ st, loop_body st item = Raise TypeError)
  ∧ (∀ s, item = JStr s →
       if is_substring "type" s || is_substring "movie" s || is_substring "show" s
       then ∃ e, item_outcome item = Raise e
       else item_outcome item = Ok None)
  ∧ (∀ l, item = JArr l →
       if existsb (str_eq "type") l || existsb (str_eq "movie") l
          || existsb (str_eq "show") l
       then ∃ e, item_outcome item = Raise e
       else item_outcome item = Ok None).
Proof.
  intros Hnd. split; [|split; [|split]].
  - intros e (m & _ & _ & -> & _)%item_outcome_entry. by destruct (Hnd m).
  - by destruct item.
  - intros s ->. unfold item_outcome, loop_body, resolve_item, in_and_ids.
    simpl py_in. rewrite !bind_Ok.
    destruct (is_substring "type" s); simpl; [eauto|].
    destruct (is_substring "movie" s); simpl; [eauto|].
    destruct (is_substring "show" s); simpl; eauto.
  - intros l ->. unfold item_outcome, loop_body, resolve_item, in_and_ids.
    simpl py_in. rewrite !bind_Ok.
    destruct (existsb (str_eq "type") l); simpl; [eauto|].
    destruct (existsb (str_eq "movie") l); simpl; [eauto|].
    destruct (existsb (str_eq "show") l); simpl; eauto.
Qed.

Lemma non_dict_item_no_record_witness :
  item_outcome (JStr "tt0113277") = Ok None
  ∧ loop_body (Locals [] 0) (JInt 7) = Raise TypeError.
Proof.
  assert (∀ m, JStr "tt0113277" ≠ JObj m) as Hs by (intros m; discriminate).
  assert (∀ m, JInt 7 ≠ JObj m) as Hn by (intros m; discriminate).
  split.
  - exact (proj1 (proj2 (proj2 (non_dict_item_no_record _ Hs))) "tt0113277" eq_refl).
  - exact (proj1 (proj2 (non_dict_item_no_record _ Hn)) eq_refl (Locals [] 0)).
Defined.

(** ** When the conversion raises *)

Lemma for_items_raise data st e :
  for_items data st = Raise e ↔
  ∃ pre x post, data = (pre ++ x :: post)%list
                ∧ Forall (λ y, ∃ o, item_outcome y = Ok o) pre
                ∧ item_outcome x = Raise e.
Proof.
  revert st. induction data as [|y data IH]; intros st; simpl.
  - split; [done|]. intros (pre & x & post & Heq & _). by destruct pre.
  - rewrite loop_body_outcome. destruct (item_outcome y) as [o|e'] eqn:Hy.
    + rewrite !bind_Ok, IH. split.
      * intros (pre & x & post & -> & Hpre & Hx).
        exists (y :: pre), x, post. split; [done|]. split; [|done].
        constructor; eauto.
      * intros (pre & x & post & Heq & Hpre & Hx).
        destruct pre as [|y' pre]; simplify_eq/=; [congruence|].
        exists pre, x, post. split; [done|]. split; [|done].
        by inversion Hpre.
    + split.
      * intros ?; simplify_eq/=. exists [], y, data. split; [done|]. split; [|done].
        constructor.
      * intros (pre & x & post & Heq & Hpre & Hx). simpl.
        destruct pre as [|y' pre]; injection Heq as <- _.
        -- congruence.
        -- inversion Hpre as [|? ? [o Ho] _]. congruence.
Qed.

(** X4. The conversion raises exactly when some item raises, and then with
    the exception of the first such item: one bad item aborts the whole
    conversion, whatever comes before or after it, and no partial result is
    returned. *)
Theorem convert_raises_first (data : list json) e :
  convert_export_to_import data = Raise e ↔
  ∃ pre x post, data = (pre ++ x :: post)%list
                ∧ Forall (λ y, ∃ o, item_outcome y = Ok o) pre
                ∧ item_outcome x = Raise e.
Proof.
  rewrite <-(for_items_raise data (Locals [] 0) e).
  unfold convert_export_to_import, convert_loop.
  destruct (for_items data _); simpl; split; intros ?; by simplify_eq.
Qed.

Lemma convert_raises_first_witness :
  convert_export_to_import (scenario1 ++ [null_movie_item] ++ scenario2)%list
  = Raise AttributeError.
Proof.
  apply (proj2 (convert_raises_first _ AttributeError)).
  exists scenario1, null_movie_item, scenario2. split; [reflexivity|]. split.
  - constructor; [|constructor]. exists (Some scenario1_entry). vm_compute. reflexivity.
  - vm_compute. reflexivity.
Defined.

(** ** What an emitted record holds *)

(** X5. An emitted record has no key besides its identifier field and
    [type], [watched_at], [watchlisted_at], [rating], [rated_at]: the nested
    sub-records and every other field of the item are left behind. *)
Theorem emitted_keys data records out :
  convert_export_to_import data = Ok (records, out) →
  ∀ e, e ∈ records → ∀ k, is_Some (e !! k) → k ∈ id_fields ∨ k ∈ other_keys.
Proof.
  intros Hconv.
  apply (Forall_forall (λ e : gmap string json,
           ∀ k, is_Some (e !! k) → k ∈ id_fields ∨ k ∈ other_keys)).
  eapply convert_records_Forall; [|done]. clear.
  intros item e (m & r & p & -> & Hr & Hp & Hkey & Hval & ->)%item_outcome_entry.
  intros k Hk. destruct (id_field_facts p Hp) as (Hin & _ & Hother).
  destruct (decide (k ∈ other_keys)) as [|Hno]; [by right|left].
  destruct (decide (k = id_field p)) as [->|Hne]; [done|].
  rewrite entry_of_other in Hk by done. by destruct Hk.
Qed.

Lemma emitted_keys_witness :
  convert_export_to_import scenario1 = Ok ([scenario1_entry], [])
  ∧ ("watched_at" ∈ id_fields ∨ "watched_at" ∈ other_keys).
Proof.
  assert (convert_export_to_import scenario1 = Ok ([scenario1_entry], [])) as Hconv
      by (vm_compute; reflexivity).
  split; [exact Hconv|].
  apply (emitted_keys scenario1 [scenario1_entry] [] Hconv scenario1_entry
           (list_elem_of_here _ _) "watched_at").
  exists (JStr "2020-01-01T00:00:00Z"). vm_compute. reflexivity.
Defined.

(** X6. In every emitted record [rated_at] comes with [rating], and a
    [rating] that is present is truthy (never 0 or null). *)
Theorem emitted_rated_at_has_rating data records out :
  convert_export_to_import data = Ok (records, out) →
  ∀ e, e ∈ records →
    (is_Some (e !! "rated_at") → is_Some (e !! "rating"))
    ∧ (∀ v, e !! "rating" = Some v → truthy v = true).
Proof.
  intros Hconv. apply Forall_forall.
  eapply convert_records_Forall; [|done]. clear.
  intros item e (m & r & p & -> & Hr & Hp & Hkey & Hval & ->)%item_outcome_entry.
  destruct (id_field_facts p Hp) as (_ & _ & Hother).
  rewrite entry_of_rated_at, entry_of_rating by done. unfold copied_rating. split.
  - destruct (m !! "rating") as [rt|]; [|by intros []].
    destruct (truthy rt); [eauto|by intros []].
  - intros v. destruct (m !! "rating") as [rt|]; [|done].
    destruct (truthy rt) eqn:Hrt; [|done]. by intros [= <-].
Qed.

Lemma emitted_rated_at_has_rating_witness :
  convert_export_to_import [unrated_item] = Ok ([unrated_entry], [])
  ∧ (is_Some (unrated_entry !! "rated_at") → is_Some (unrated_entry !! "rating")).
Proof.
  assert (convert_export_to_import [unrated_item] = Ok ([unrated_entry], [])) as Hconv
      by (vm_compute; reflexivity).
  split; [exact Hconv|].
  exact (proj1 (emitted_rated_at_has_rating _ _ _ Hconv unrated_entry
                  (list_elem_of_here _ _))).
Defined.

(** ** The fields of an item that matter *)

Lemma resolve_item_agree (a b : gmap string json) :
  (∀ q, q ∈ relevant_keys → a !! q = b !! q) →
  resolve_item (JObj a) = resolve_item (JObj b).
Proof.
  intros Hq.
  pose proof (Hq "type" ltac:(in_list)) as Htype.
  pose proof (Hq "episode" ltac:(in_list)) as Hepisode.
  pose proof (Hq "movie" ltac:(in_list)) as Hmovie.
  pose proof (Hq "show" ltac:(in_list)) as Hshow.
  pose proof (Hq "season" ltac:(in_list)) as Hseason.
  pose proof (Hq "watched_at" ltac:(in_list)) as Hwatched.
  pose proof (Hq "last_watched_at" ltac:(in_list)) as Hlast.
  unfold resolve_item, history_ids, get_and_ids, in_and_ids, extract_id_at.
  cbn [py_in py_get py_getitem].
  by rewrite Htype, Hepisode, Hmovie, Hshow, Hseason, Hwatched, Hlast.
Qed.

Lemma entry_of_agree (a b : gmap string json) key r :
  (∀ q, q ∈ relevant_keys → a !! q = b !! q) →
  entry_of a key r = entry_of b key r.
Proof.
  intros Hq. unfold entry_of.
  by rewrite (Hq "watchlisted_at" ltac:(in_list)), (Hq "rating" ltac:(in_list)),
             (Hq "rated_at" ltac:(in_list)).
Qed.

(** X7. What the normalizer does with a dictionary item depends only on
    the item's [type], [episode], [movie], [show], [season], [watched_at],
    [last_watched_at], [watchlisted_at], [rating] and [rated_at]: two items
    that agree on these ten keys have the same outcome (the same record, a
    skip, or the same exception), whatever else they carry. *)
Theorem outcome_relevant_keys (a b : gmap string json) :
  (∀ q, q ∈ relevant_keys → a !! q = b !! q) →
  item_outcome (JObj a) = item_outcome (JObj b)
  ∧ ∀ st, loop_body st (JObj a) = loop_body st (JObj b).
Proof.
  intros Hq.
  assert (∀ st, loop_body st (JObj a) = loop_body st (JObj b)) as Hbody.
  { intros st. unfold loop_body. rewrite (resolve_item_agree a b Hq).
    destruct (resolve_item (JObj b)) as [r|]; [|done]. rewrite !bind_Ok.
    destruct (id_key r) as [key|]; [|done].
    destruct (negb _ && _); [|done].
    by rewrite !build_entry_obj, (entry_of_agree a b key r Hq). }
  split; [|done]. unfold item_outcome. by rewrite Hbody.
Qed.

Lemma outcome_relevant_keys_witness :
  item_outcome (JObj action_movie_item)
  = item_outcome (JObj (delete "action" action_movie_item)).
Proof.
  apply (outcome_relevant_keys action_movie_item (delete "action" action_movie_item)).
  intros q Hq. unfold relevant_keys in Hq.
  repeat (apply elem_of_cons in Hq as [->|Hq]; [vm_compute; reflexivity|]).
  destruct (not_elem_of_nil _ Hq).
Defined.

(** ** Converting the converter's output *)

Lemma entry_item_skipped m p r :
  p ∈ provider_priority →
  item_outcome (JObj (entry_of m (id_field p) r)) = Ok None.
Proof.
  intros Hp. destruct (id_field_facts p Hp) as (_ & _ & Hother).
  set (e := entry_of m (id_field p) r).
  assert (e !! "type" = Some (item_type r)) as Hty by (by apply entry_of_type).
  assert (∀ q, q ∈ history_order → absent_or_empty e q = true) as Hall.
  { intros q Hq. unfold absent_or_empty, e. rewrite entry_of_other; [done|..].
    - unfold history_order, other_keys in *. intros Hin.
      repeat (apply elem_of_cons in Hq as [->|Hq]);
        try (destruct (not_elem_of_nil _ Hq));
        repeat (apply elem_of_cons in Hin as [Heq|Hin]; [discriminate Heq|]);
        destruct (not_elem_of_nil _ Hin).
    - unfold history_order in Hq.
      repeat (apply elem_of_cons in Hq as [->|Hq]);
        try (destruct (not_elem_of_nil _ Hq));
        unfold provider_priority in Hp;
        repeat (apply elem_of_cons in Hp as [->|Hp]);
        try (destruct (not_elem_of_nil _ Hp)); discriminate. }
  apply (item_outcome_no_key _
           (ItemVars None JNull (item_type r) (dict_get e "watched_at"))); [|done].
  by rewrite (resolve_item_history e _ Hty), (history_ids_none e Hall).
Qed.

Lemma for_items_all_skipped (es : list (gmap string json)) st :
  Forall (λ e, item_outcome (JObj e) = Ok None) es →
  for_items (JObj <$> es) st = Ok (Locals (result st) (skipped_count st + length es)).
Proof.
  intros Hes. revert st. induction Hes as [|e es He _ IH]; intros st.
  - destruct st. simpl. by rewrite Nat.add_0_r.
  - rewrite fmap_cons. cbn [for_items].
    rewrite loop_body_outcome, He, !bind_Ok. cbv beta.
    rewrite IH. simpl. do 2 f_equal. lia.
Qed.

(** X8. The conversion is one-way: fed its own output, the normalizer skips
    every record (each has a [type] key and no sub-record), returning no
    record and a skip count equal to the number of records. *)
Theorem convert_output_all_skipped data records out :
  convert_export_to_import data = Ok (records, out) →
  convert_loop (JObj <$> records) = Ok (Locals [] (length records))
  ∧ convert_export_to_import (JObj <$> records) = Ok ([], warning (length records)).
Proof.
  intros Hconv.
  assert (Forall (λ e, item_outcome (JObj e) = Ok None) records) as Hall.
  { eapply convert_records_Forall; [|done]. clear.
    intros item e (m & r & p & -> & Hr & Hp & Hkey & Hval & ->)%item_outcome_entry.
    by apply entry_item_skipped. }
  assert (convert_loop (JObj <$> records) = Ok (Locals [] (length records))) as Hloop.
  { unfold convert_loop. by rewrite (for_items_all_skipped records (Locals [] 0) Hall). }
  split; [done|]. unfold convert_export_to_import. by rewrite Hloop.
Qed.

Lemma convert_output_all_skipped_witness :
  convert_export_to_import scenario1 = Ok ([scenario1_entry], [])
  ∧ convert_export_to_import [JObj scenario1_entry] = Ok ([], [SkippedWarning 1]).
Proof.
  assert (convert_export_to_import scenario1 = Ok ([scenario1_entry], [])) as Hconv
      by (vm_compute; reflexivity).
  split; [exact Hconv|].
  exact (proj2 (convert_output_all_skipped scenario1 [scenario1_entry] [] Hconv)).
Defined.

(** ** The warning *)

(** X9. When the conversion returns, the count it prints is the number of
    input items minus the number of records; nothing is printed exactly when
    every item was converted, and a printed count is never zero. *)
Theorem warning_counts_skipped data records out :
  convert_export_to_import data = Ok (records, out) →
  length records + printed_count out = length data
  ∧ (out = [] ↔ length records = length data)
  ∧ (∀ n, SkippedWarning n ∈ out → 0 < n ∧ out = [SkippedWarning n]).
Proof.
  intros (st & Hst & -> & ->)%convert_records.
  unfold convert_loop in Hst. apply for_items_length in Hst. simpl in Hst.
  rewrite printed_count_warning. split; [lia|]. unfold warning.
  destruct (skipped_count st) as [|n] eqn:Hn; simpl.
  - split; [split; [lia|done]|]. intros n Hin. by apply elem_of_nil in Hin.
  - split; [split; [done|lia]|].
    intros k Hin. apply list_elem_of_singleton in Hin. injection Hin as ->.
    split; [lia|done].
Qed.

Lemma warning_counts_skipped_witness :
  convert_export_to_import [JObj action_only_item] = Ok ([], [SkippedWarning 1])
  ∧ 0 + printed_count [SkippedWarning 1] = 1.
Proof.
  assert (convert_export_to_import [JObj action_only_item]
          = Ok ([], [SkippedWarning 1])) as Hconv by (vm_compute; reflexivity).
  split; [exact Hconv|].
  exact (proj1 (warning_counts_skipped _ _ _ Hconv)).
Defined.

(** ** Detector and normalizer on the first item *)

Lemma classify_first_keys m :
  (classify_first m = "unknown" →
     m !! "type" = None ∧ m !! "movie" = None ∧ m !! "show" = None)
  ∧ (classify_first m = "watched-shows" →
     m !! "type" = None ∧ m !! "movie" = None ∧ is_Some (m !! "show"))
  ∧ (classify_first m = "watched-movies" →
     m !! "type" = None ∧ is_Some (m !! "movie"))
  ∧ (classify_first m = "history" →
     is_Some (m !! "action") ∨ is_Some (m !! "type")).
Proof.
  unfold classify_first, has_key.
  destruct (m !! "action") as [a|], (m !! "type") as [t|],
           (m !! "movie") as [mv|], (m !! "show") as [sh|]; simpl;
    repeat split; try discriminate; eauto.
Qed.

(** X10. On a sequence that starts with a dictionary, the detector's answer
    bounds what the normalizer does with that first item: after "unknown"
    the item is skipped; after "watched-shows" it can only be emitted with
    type ["show"]; after "watched-movies" it can only be emitted with type
    ["movie"] or ["show"] (the latter when [movie] has no identifiers).  In
    the last two cases the record's [watched_at] comes from the item's
    [last_watched_at], never from its [watched_at]. *)
Theorem detected_shape_first_item m rest :
  (detect_file_type (JObj m :: rest) = Ok "unknown" →
     item_outcome (JObj m) = Ok None)
  ∧ (detect_file_type (JObj m :: rest) = Ok "watched-shows" →
     ∀ e, item_outcome (JObj m) = Ok (Some e) →
       e !! "type" = Some (JStr "show")
       ∧ e !! "watched_at" = if truthy (dict_get m "last_watched_at")
                             then Some (dict_get m "last_watched_at") else None)
  ∧ (detect_file_type (JObj m :: rest) = Ok "watched-movies" →
     ∀ e, item_outcome (JObj m) = Ok (Some e) →
       (e !! "type" = Some (JStr "movie") ∨ e !! "type" = Some (JStr "show"))
       ∧ e !! "watched_at" = if truthy (dict_get m "last_watched_at")
                             then Some (dict_get m "last_watched_at") else None).
Proof.
  rewrite detect_file_type_obj.
  destruct (classify_first_keys m) as (Hunknown & Hshows & Hmovies & _).
  split; [|split].
  - intros [= Hc]. destruct (Hunknown Hc) as (Hty & Hmv & Hsh).
    apply (item_outcome_no_key _ (ItemVars None JNull JNull JNull)); [|done].
    rewrite (resolve_item_watched m Hty), !in_and_ids_obj, Hmv, Hsh. done.
  - intros [= Hc] e He. destruct (Hshows Hc) as (Hty & Hmv & _).
    apply item_outcome_entry in He as (m' & r & p & [= <-] & Hr & Hp & Hkey & _ & ->).
    destruct (id_field_facts p Hp) as (_ & _ & Hother).
    rewrite entry_of_type, entry_of_watched_at by done.
    rewrite (resolve_item_watched m Hty), !in_and_ids_obj, Hmv, bind_Ok in Hr.
    cbv beta iota in Hr. revert Hr. case_bind. case_if.
    + case_bind. intros ?; by simplify_eq.
    + intros ?; by simplify_eq.
  - intros [= Hc] e He. destruct (Hmovies Hc) as (Hty & _).
    apply item_outcome_entry in He as (m' & r & p & [= <-] & Hr & Hp & Hkey & _ & ->).
    destruct (id_field_facts p Hp) as (_ & _ & Hother).
    rewrite entry_of_type, entry_of_watched_at by done.
    apply resolve_item_type in Hr. rewrite Hty in Hr.
    destruct Hr as [[Hmovie ->]|Hnone]; [|by rewrite Hnone in Hkey].
    split; [|done]. destruct Hmovie as [-> | ->]; eauto.
Qed.

Lemma detected_shape_first_item_witness :
  detect_file_type [JObj empty_movie_show_item] = Ok "watched-movies"
  ∧ item_outcome (JObj empty_movie_show_item) = Ok (Some show_tt1_entry)
  ∧ (show_tt1_entry !! "type" = Some (JStr "movie")
     ∨ show_tt1_entry !! "type" = Some (JStr "show")).
Proof.
  assert (detect_file_type [JObj empty_movie_show_item] = Ok "watched-movies") as Hdet
      by (vm_compute; reflexivity).
  assert (item_outcome (JObj empty_movie_show_item) = Ok (Some show_tt1_entry)) as He
      by (vm_compute; reflexivity).
  split; [exact Hdet|]. split; [exact He|].
  exact (proj1 (proj2 (proj2 (detected_shape_first_item empty_movie_show_item []))
                  Hdet show_tt1_entry He)).
Defined.

(** X11. Whenever the detector raises, the converter raises too (a
    [TypeError], on a first item that is [None], a boolean or a number): the
    detector rejects no input that the converter would accept. *)
Theorem detect_raises_convert_raises (data : list json) e :
  detect_file_type data = Raise e →
  e = TypeError ∧ convert_export_to_import data = Raise TypeError.
Proof.
  destruct data as [|x rest]; [discriminate|].
  unfold detect_file_type, convert_export_to_import, convert_loop. simpl for_items.
  destruct x as [| | | |s|l|m]; simpl py_in;
    try (intros ?; simplify_eq/=; done); rewrite !bind_Ok; intros Hdet; exfalso;
    repeat match type of Hdet with
           | context [if ?b then _ else _] => destruct b; simpl in Hdet
           end; discriminate.
Qed.

Lemma detect_raises_convert_raises_witness :
  detect_file_type [JInt 7; JObj action_only_item] = Raise TypeError
  ∧ convert_export_to_import [JInt 7; JObj action_only_item] = Raise TypeError.
Proof.
  assert (detect_file_type [JInt 7; JObj action_only_item] = Raise TypeError) as Hdet
      by reflexivity.
  split; [exact Hdet|].
  exact (proj2 (detect_raises_convert_raises _ _ Hdet)).
Defined.

(** ** The default output name *)

Lemma append_cons a s t : String a s +:+ t = String a (s +:+ t).
Proof. reflexivity. Qed.

Lemma append_assoc (a b c : string) : (a +:+ b) +:+ c = a +:+ (b +:+ c).
Proof.
  induction a as [|x a IH]; [done|]. by rewrite !append_cons, IH.
Qed.

Lemma list_ascii_of_append (s t : string) :
  String.list_ascii_of_string (s +:+ t)
  = (String.list_ascii_of_string s ++ String.list_ascii_of_string t)%list.
Proof.
  induction s as [|x s IH]; [done|]. rewrite append_cons. simpl. by rewrite IH.
Qed.

Lemma append_inj_r (s1 s2 t : string) : s1 +:+ t = s2 +:+ t → s1 = s2.
Proof.
  intros Heq. apply (f_equal String.list_ascii_of_string) in Heq.
  rewrite !list_ascii_of_append in Heq. apply app_inv_tail in Heq.
  apply (f_equal String.string_of_list_ascii) in Heq.
  by rewrite !String.string_of_list_ascii_of_string in Heq.
Qed.

Lemma name_mapping_Some s v :
  name_mapping !! s = Some v →
  (s, v) ∈ [("history-1", "history_import"); ("history-2", "history_import");
            ("history-3", "history_import"); ("watched-movies", "movies_import");
            ("watched-shows", "shows_import")].
Proof. unfold name_mapping. apply elem_of_list_to_map_2. Qed.

(** X12. The default output name is never [<stem>.json]: run on a file
    [<stem>.json] of the working directory, the script does not choose that
    file's own name for its output. *)
Theorem generate_output_filename_not_input (stem : string → string) input_file :
  generate_output_filename stem input_file ≠ stem input_file +:+ ".json".
Proof.
  unfold generate_output_filename.
  destruct (name_mapping !! stem input_file) as [v|] eqn:Hv; simpl.
  - apply name_mapping_Some in Hv. intros Heq.
    repeat (apply elem_of_cons in Hv as [[= Hs ->]|Hv];
            [rewrite Hs in Heq; vm_compute in Heq; discriminate|]).
    destruct (not_elem_of_nil _ Hv).
  - rewrite append_assoc. intros Heq. apply (inj (String.append _)) in Heq.
    vm_compute in Heq. discriminate.
Qed.

(** X13. Stems outside the table of special names get distinct default
    names, the stem followed by ["_import.json"]; the three history stems
    share one name, so converting [history-1], [history-2] and [history-3]
    with default names writes the same file three times. *)
Theorem generate_output_filename_collisions (stem : string → string) a b :
  (name_mapping !! stem a = None →
     generate_output_filename stem a = stem a +:+ "_import.json"
     ∧ (name_mapping !! stem b = None →
        generate_output_filename stem a = generate_output_filename stem b →
        stem a = stem b))
  ∧ (stem a ∈ ["history-1"; "history-2"; "history-3"] →
     generate_output_filename stem a = "history_import.json"
     ∧ (stem b ∈ ["history-1"; "history-2"; "history-3"] →
        generate_output_filename stem a = generate_output_filename stem b)).
Proof.
  assert (∀ p, stem p ∈ ["history-1"; "history-2"; "history-3"] →
               generate_output_filename stem p = "history_import.json") as Hhist.
  { intros p Hp. unfold generate_output_filename.
    repeat (apply elem_of_cons in Hp as [->|Hp]; [vm_compute; reflexivity|]).
    destruct (not_elem_of_nil _ Hp). }
  split.
  - intros Ha. unfold generate_output_filename. rewrite Ha. simpl.
    split; [by rewrite append_assoc|].
    intros Hb. rewrite Hb. simpl. intros Heq.
    by do 2 apply append_inj_r in Heq.
  - intros Ha. split; [by apply Hhist|]. intros Hb. by rewrite !Hhist.
Qed.

Lemma generate_output_filename_collisions_witness :
  generate_output_filename (λ p, p) "ratings" = "ratings_import.json"
  ∧ generate_output_filename (λ p, p) "history-2"
    = generate_output_filename (λ p, p) "history-3".
Proof.
  split.
  - apply (proj1 (generate_output_filename_collisions (λ p, p) "ratings" "ratings")).
    vm_compute. reflexivity.
  - apply (proj2 (generate_output_filename_collisions (λ p, p) "history-2" "history-3")).
    + apply list_elem_of_In. simpl. tauto.
    + apply list_elem_of_In. simpl. tauto.
Defined.

(** ** The script *)

Lemma print_all_written E ms t : written (print_all E ms t).2 = written t.
Proof.
  revert t. induction ms as [|m ms IH]; intros t; [done|].
  simpl. unfold seq, print. destruct (print_ok E m); [|done]. by rewrite IH.
Qed.

Lemma print_sys_exit E m t :
  ∃ c t', (print E m >> sys_exit) t = (c, t') ∧ c ≠ Returns ∧ written t' = written t.
Proof.
  unfold seq, print, sys_exit. destruct (print_ok E m); eauto.
Qed.

(** Where the [try] block can stop: before anything is written, without
    falling off its end; or after the [json.dump] call, made on what the
    converter returned. *)
Lemma try_block_cases E input_file output_file c t :
  try_block E input_file output_file (Trace [] None) = (c, t) →
  (written t = None ∧ c ≠ Returns)
  ∨ ∃ data warned content,
      json_load E input_file = Loaded (JArr data)
      ∧ convert_export_to_import data = Ok (content, warned)
      ∧ content ≠ []
      ∧ written t = Some (output_file, content)
      ∧ c = match json_dump E output_file content with
            | Some e => Raises e
            | None => if print_ok E (Success (length content) output_file)
                      then Returns else Raises OtherException
            end.
Proof.
  unfold try_block, seq at 1, print at 1.
  destruct (print_ok E (Loading input_file)); [|intros [= <- <-]; by left].
  destruct (json_load E input_file) as [data|e] eqn:Hload;
    [|intros [= <- <-]; by left].
  assert (∀ t0, written t0 = None →
            (print E ExpectedArray >> sys_exit) t0 = (c, t) →
            written t = None ∧ c ≠ Returns) as Hnot.
  { intros t0 Ht0 Heq.
    destruct (print_sys_exit E ExpectedArray t0) as (c' & t' & Heq' & ? & ?).
    rewrite Heq' in Heq. simplify_eq. split; [congruence|done]. }
  destruct data as [| | | | |data|]; try (intros Heq; left; eapply Hnot; [|exact Heq]; done).
  clear Hnot.
  destruct (detect_file_type data) as [ft|]; [|intros [= <- <-]; by left].
  unfold seq at 1 2 3, print at 1 2 3.
  destruct (print_ok E (Detected ft)); [|intros [= <- <-]; by left].
  simpl written. simpl printed.
  destruct (print_ok E (Found (length data))); [|intros [= <- <-]; by left].
  simpl written. simpl printed.
  destruct (print_ok E Converting); [|intros [= <- <-]; by left].
  simpl written. simpl printed.
  destruct (convert_export_to_import data) as [[converted warned]|] eqn:Hconv;
    [|intros [= <- <-]; by left].
  unfold seq at 1.
  match goal with |- context [print_all E ?ms ?t0] =>
    pose proof (print_all_written E ms t0) as Hw;
    destruct (print_all E ms t0) as [c1 t1] end.
  simpl in Hw.
  destruct c1; [|intros [= <- <-]; by left..].
  destruct converted as [|x converted].
  { intros Heq. left.
    destruct (print_sys_exit E NoValidItems t1) as (c' & t' & Heq' & ? & ?).
    rewrite Heq' in Heq. simplify_eq. split; [congruence|done]. }
  unfold seq, print, dump.
  destruct (print_ok E (Saving output_file)); [|intros [= <- <-]; by left].
  simpl written. simpl printed. intros Heq. right.
  exists data, warned, (x :: converted). repeat split; try done.
  - destruct (json_dump E output_file (x :: converted)); [by simplify_eq|].
    destruct (print_ok E (Success _ _)); by simplify_eq.
  - destruct (json_dump E output_file (x :: converted)); [by simplify_eq|].
    destruct (print_ok E (Success _ _)); by simplify_eq.
Qed.

(** The [except] clauses leave what was written as it is, and never give
    status 0. *)
Lemma try_except_exit E input_file a c t :
  a (Trace [] None) = (c, t) → c ≠ Returns →
  finish E (try_except a (λ e, print E (handler input_file e) >> sys_exit)
                       (Trace [] None))
  = Run (process_status E 1)
        (stdout (finish E (try_except a
                   (λ e, print E (handler input_file e) >> sys_exit)
                   (Trace [] None))))
        (written t).
Proof.
  intros Ha Hc. unfold try_except. rewrite Ha.
  destruct c as [| |e]; [done|done|].
  destruct (print_sys_exit E (handler input_file e) t) as (c' & t' & -> & ? & <-).
  unfold finish. simpl. by destruct c'.
Qed.

Lemma main_try E script input_file rest :
  path_exists E input_file = true →
  main E (script :: input_file :: rest)
  = finish E (try_except (try_block E input_file (output_path E input_file rest))
                (λ e, print E (handler input_file e) >> sys_exit)
                (Trace [] None)).
Proof. intros Hex. unfold main. by rewrite Hex. Qed.

(** Without the [try] block nothing is written and the status is never 0. *)
Lemma main_early_exit E m :
  exit_code (finish E ((print E m >> sys_exit) (Trace [] None))) = process_status E 1
  ∧ dumped (finish E ((print E m >> sys_exit) (Trace [] None))) = None.
Proof.
  destruct (print_sys_exit E m (Trace [] None)) as (c & t & -> & ? & Hw).
  unfold finish. simpl. rewrite Hw. by destruct c.
Qed.

Lemma main_cases E argv :
  (exit_code (main E argv) = process_status E 1 ∧ dumped (main E argv) = None)
  ∨ ∃ script input_file rest data warned content,
      argv = script :: input_file :: rest
      ∧ path_exists E input_file = true
      ∧ json_load E input_file = Loaded (JArr data)
      ∧ convert_export_to_import data = Ok (content, warned)
      ∧ content ≠ []
      ∧ dumped (main E argv) = Some (output_path E input_file rest, content)
      ∧ exit_code (main E argv)
        = process_status E
            match json_dump E (output_path E input_file rest) content with
            | Some _ => 1
            | None =>
                if print_ok E (Success (length content)
                                       (output_path E input_file rest))
                then 0 else 1
            end.
Proof.
  destruct argv as [|script [|input_file rest]];
    [left; apply main_early_exit..|].
  destruct (path_exists E input_file) eqn:Hex;
    [|left; unfold main; rewrite Hex; apply main_early_exit].
  rewrite (main_try E script input_file rest Hex).
  destruct (try_block E input_file (output_path E input_file rest) (Trace [] None))
    as [c t] eqn:Htry.
  destruct (try_block_cases _ _ _ _ _ Htry)
    as [[Hw Hc]|(data & warned & content & Hload & Hconv & Hne & Hw & Hc)].
  - left. rewrite (try_except_exit E input_file _ c t Htry Hc). by rewrite Hw.
  - right. exists script, input_file, rest, data, warned, content.
    repeat split; try done.
    + assert (c = Returns ∨ c ≠ Returns) as [Hret|Hc']
        by (destruct c; [by left|by right..]).
      * unfold try_except. by rewrite Htry, Hret.
      * by rewrite (try_except_exit E input_file _ c t Htry Hc').
    + assert (c = Returns ∨ c ≠ Returns) as [Hret|Hc']
        by (destruct c; [by left|by right..]).
      * unfold try_except. rewrite Htry, Hret. rewrite Hret in Hc.
        unfold finish. simpl.
        destruct (json_dump E _ content); [done|].
        by destruct (print_ok E (Success _ _)).
      * rewrite (try_except_exit E input_file _ c t Htry Hc'). simpl.
        destruct (json_dump E _ content); [done|].
        by destruct (print_ok E (Success _ _)).
Qed.

Lemma main_dumped_inv E argv path content :
  dumped (main E argv) = Some (path, content) →
  ∃ script input_file rest data warned,
    argv = script :: input_file :: rest
    ∧ path_exists E input_file = true
    ∧ json_load E input_file = Loaded (JArr data)
    ∧ convert_export_to_import data = Ok (content, warned)
    ∧ content ≠ []
    ∧ path = output_path E input_file rest
    ∧ exit_code (main E argv)
      = process_status E
          match json_dump E path content with
          | Some _ => 1
          | None => if print_ok E (Success (length content) path) then 0 else 1
          end.
Proof.
  intros Hd.
  destruct (main_cases E argv)
    as [[_ Hnone]|(script & input_file & rest & data & warned & content' & -> & Hex
                   & Hload & Hconv & Hne & Hd' & Hexit)]; [congruence|].
  rewrite Hd' in Hd. simplify_eq.
  by exists script, input_file, rest, data, warned.
Qed.

(** X14. The script writes at most once, and only the converter's result:
    a [json.dump] call is made only when the input file exists and holds an
    array on which the converter returned at least one record; what is
    written is exactly the list of those records, to the second argument
    when given and to the default name otherwise.  No empty array and no
    partial result is ever written. *)
Theorem main_writes_converted E argv path content :
  dumped (main E argv) = Some (path, content) →
  ∃ script input_file rest data warned,
    argv = script :: input_file :: rest
    ∧ path_exists E input_file = true
    ∧ json_load E input_file = Loaded (JArr data)
    ∧ convert_export_to_import data = Ok (content, warned)
    ∧ content ≠ []
    ∧ length content + printed_count warned = length data
    ∧ path = output_path E input_file rest.
Proof.
  intros (script & input_file & rest & data & warned & -> & Hex & Hload & Hconv
          & Hne & -> & _)%main_dumped_inv.
  exists script, input_file, rest, data, warned. repeat split; try done.
  apply convert_records in Hconv as (st & Hst & -> & ->).
  unfold convert_loop in Hst. apply for_items_length in Hst. simpl in Hst.
  by rewrite printed_count_warning.
Qed.

Lemma main_writes_converted_witness :
  dumped (main (env_with (JArr scenario1)) ["trakt_converter.py"; "history-1"])
  = Some ("history_import.json", [scenario1_entry])
  ∧ ∃ script input_file rest data warned,
      ["trakt_converter.py"; "history-1"] = script :: input_file :: rest
      ∧ path_exists (env_with (JArr scenario1)) input_file = true
      ∧ json_load (env_with (JArr scenario1)) input_file = Loaded (JArr data)
      ∧ convert_export_to_import data = Ok ([scenario1_entry], warned)
      ∧ [scenario1_entry] ≠ []
      ∧ length [scenario1_entry] + printed_count warned = length data
      ∧ "history_import.json" = output_path (env_with (JArr scenario1)) input_file rest.
Proof.
  assert (dumped (main (env_with (JArr scenario1))
                       ["trakt_converter.py"; "history-1"])
          = Some ("history_import.json", [scenario1_entry])) as Hd.
  { vm_compute. reflexivity. }
  split; [exact Hd|].
  exact (main_writes_converted _ _ _ _ Hd).
Defined.




